(** * Point Cloud Bounding Box Generator: a shallow embedding of [main.py]

    The development follows the source file top to bottom:

    - [Pathlib]: the fragment of [pathlib] the script uses (pure paths as
      component lists, [name], [/], [str], and the wildcard matcher behind
      [Path.glob]), then the directory tree as the list of its entries in
      enumeration order, with [exists], [glob] and [mkdir] on it;
    - [create_bounding_box_points], on headers whose extents are binary64
      floating-point numbers;
    - a state-and-exception monad in which [get_las_files],
      [process_point_clouds] and [main] are written; the state holds the
      file system and the log of observable calls (lines printed, calls of
      the dataset writer).

    Modelling conventions.
    - A command-line path string is identified with the [Path] it parses to:
      a list of components, without [.] or [..] and without symbolic links.
      The empty list is the directory every relative path starts from.
    - [laspy] and [fiona] are external.  What [laspy.open] finds in a file is
      stored with the file ([File (inr header)] or [File (inl message)]).
      Whether [fiona.open] and [dst.write] raise is decided by the
      environment [Env]; closing the collection is taken to succeed.
    - [tqdm] only decorates the iteration; it writes to the standard error
      stream, which is not modelled.
    - A [CommandLine] is a command line that [argparse] has accepted.  The
      exits of [parse_args] itself (status 2 with a usage message on the
      standard error stream, status 0 after [--help]) come before the body of
      [main] modelled here.
    - The two messages that interpolate the folder argument ([Folder not
      found] and [No .las or .laz files found in]) print it in its parsed
      form; theorems about these two exceptions give their class and the
      place where they are raised.
    - Of the files the shapefile driver writes, the tree records the [.shp]
      file named by the dataset path. *)

From Stdlib Require Import List String Ascii Bool Arith ZArith Lia.
From Stdlib Require Import DecimalString Decimal.
From Stdlib Require Import Floats.
Import ListNotations.

Local Open Scope string_scope.
Local Open Scope list_scope.

(** ** Pure paths and wildcard matching *)

Module Pathlib.

(** The two path flavours of [pathlib]; [Path(...)] builds the one of the
    running platform. *)
Inductive Flavour : Type := Posix | Windows.

Definition Path : Type := list string.

(** [Path.name]: the final component, or the empty string. *)
Definition name (p : Path) : string := last p "".

(** [Path.parent]: all components but the last. *)
Definition parent (p : Path) : Path := removelast p.

(** [p / c] for a single component [c]. *)
Definition truediv (p : Path) (c : string) : Path := p ++ [c].

(** [str(p)]: the components joined by the separator; the empty path prints
    as a dot. *)
Fixpoint join (sep : string) (l : list string) : string :=
  match l with
  | [] => ""
  | [c] => c
  | c :: rest => c ++ sep ++ join sep rest
  end.

Definition str (p : Path) : string :=
  match p with
  | [] => "."
  | _ => join "/" p
  end.

(** ASCII lower-casing, as the case-insensitive flavour applies it to both
    the pattern and the entry name before matching. *)
Definition lower_ascii (c : ascii) : ascii :=
  let n := nat_of_ascii c in
  if ((65 <=? n)%nat && (n <=? 90)%nat)%bool then ascii_of_nat (n + 32) else c.

Definition lower (s : string) : string :=
  string_of_list_ascii (map lower_ascii (list_ascii_of_string s)).

(** [fnmatch] for patterns built from literal characters, [?] and [*]
    (the patterns of the script contain no bracket class). *)
Fixpoint wildcard (pat : list ascii) (s : list ascii) {struct pat} : bool :=
  match pat with
  | [] => match s with [] => true | _ :: _ => false end
  | c :: pat' =>
      if Ascii.eqb c "*"%char then
        (fix star (t : list ascii) : bool :=
           wildcard pat' t
           || match t with [] => false | _ :: t' => star t' end) s
      else if Ascii.eqb c "?"%char then
        match s with [] => false | _ :: s' => wildcard pat' s' end
      else
        match s with
        | [] => false
        | d :: s' => Ascii.eqb c d && wildcard pat' s'
        end
  end.

Definition normcase (fl : Flavour) (s : string) : string :=
  match fl with
  | Posix => s
  | Windows => lower s
  end.

Definition fnmatch (fl : Flavour) (entry pat : string) : bool :=
  wildcard (list_ascii_of_string (normcase fl pat))
           (list_ascii_of_string (normcase fl entry)).

End Pathlib.

Import Pathlib.

(** ** LAS headers and the rectangle *)

Record Header : Type := mkHeader {
  x_min : float;
  x_max : float;
  y_min : float;
  y_max : float;
  point_count : Z
}.

Definition create_bounding_box_points (header : Header) : list (float * float) :=
  [ (x_min header, y_min header);
    (x_min header, y_max header);
    (x_max header, y_max header);
    (x_max header, y_min header);
    (x_min header, y_min header) ].

(** ** The directory tree *)

(** A file carries what [laspy.open] makes of it: the message of the
    exception it raises, or the header it reads. *)
Inductive Node : Type :=
| Dir
| File (las : string + Header).

(** Entries in the order in which the operating system enumerates them. *)
Definition FileSystem : Type := list (Path * Node).

Definition path_eqb (p q : Path) : bool :=
  if list_eq_dec string_dec p q then true else false.

Fixpoint assoc (fs : FileSystem) (p : Path) : option Node :=
  match fs with
  | [] => None
  | (q, n) :: rest => if path_eqb q p then Some n else assoc rest p
  end.

Definition lookup (fs : FileSystem) (p : Path) : option Node :=
  match p with
  | [] => Some Dir
  | _ :: _ => assoc fs p
  end.

(** [Path.exists] *)
Definition path_exists (fs : FileSystem) (p : Path) : bool :=
  match lookup fs p with
  | Some _ => true
  | None => false
  end.

Definition is_child_of (folder p : Path) : bool :=
  match p with
  | [] => false
  | _ :: _ => path_eqb (parent p) folder
  end.

(** [os.scandir]: the names of the direct entries of [folder]. *)
Definition scandir (fs : FileSystem) (folder : Path) : list string :=
  map (fun e => name (fst e)) (filter (fun e => is_child_of folder (fst e)) fs).

(** [Path.glob] with a single-component pattern: the direct entries whose
    name matches; nothing when [folder] is not a directory. *)
Definition glob (fl : Flavour) (fs : FileSystem) (folder : Path) (pat : string)
  : list Path :=
  match lookup fs folder with
  | Some Dir =>
      map (truediv folder) (filter (fun n => fnmatch fl n pat) (scandir fs folder))
  | _ => []
  end.

(** Replace the node stored under [p], or add it as the newest entry. *)
Fixpoint store (fs : FileSystem) (p : Path) (n : Node) : FileSystem :=
  match fs with
  | [] => [(p, n)]
  | (q, m) :: rest =>
      if path_eqb q p then (q, n) :: rest else (q, m) :: store rest p n
  end.

(** ** Exceptions *)

Inductive ExcClass : Type :=
| FileNotFoundError
| FileExistsError
| NotADirectoryError
| IsADirectoryError
| ValueError
| LibraryError.

Record Exception : Type := mkExc {
  exc_class : ExcClass;
  exc_str : string
}.

(** [repr] of a string, as [OSError] prints a file name: single quotes,
    or double quotes when the string has a single quote and no double quote;
    the backslash and the chosen quote are escaped, control characters are
    written as escapes.  Bytes above 127 are kept as they are. *)
Definition hex_digit (n : nat) : ascii :=
  match n with
  | 0 => "0" | 1 => "1" | 2 => "2" | 3 => "3" | 4 => "4" | 5 => "5"
  | 6 => "6" | 7 => "7" | 8 => "8" | 9 => "9" | 10 => "a" | 11 => "b"
  | 12 => "c" | 13 => "d" | 14 => "e" | _ => "f"
  end%char.

Definition backslash : ascii := ascii_of_nat 92.
Definition single_quote : ascii := ascii_of_nat 39.
Definition double_quote : ascii := ascii_of_nat 34.

Definition repr_char (quote c : ascii) : list ascii :=
  let n := nat_of_ascii c in
  if Ascii.eqb c backslash then [backslash; backslash]
  else if Ascii.eqb c quote then [backslash; quote]
  else if (n =? 9)%nat then [backslash; "t"%char]
  else if (n =? 10)%nat then [backslash; "n"%char]
  else if (n =? 13)%nat then [backslash; "r"%char]
  else if ((n <? 32)%nat || (n =? 127)%nat)%bool then
    [backslash; "x"%char; hex_digit (n / 16); hex_digit (n mod 16)]
  else [c].

Definition repr (s : string) : string :=
  let l := list_ascii_of_string s in
  let quote :=
    if (existsb (Ascii.eqb single_quote) l
        && negb (existsb (Ascii.eqb double_quote) l))%bool
    then double_quote else single_quote in
  string_of_list_ascii (quote :: flat_map (repr_char quote) l ++ [quote]).

(** [str] of an [OSError] raised for a path. *)
Definition os_error (c : ExcClass) (errno : string) (what : string) (p : Path)
  : Exception :=
  mkExc c ("[Errno " ++ errno ++ "] " ++ what ++ ": " ++ repr (str p)).

(** How the system resolves a path: component by component from the
    starting directory; every component but the last must be a directory. *)
Inductive Walk : Type :=
| NoSuchEntry
| NotADirectory
| Reached (entry : option Node).

Fixpoint walk (fs : FileSystem) (base : Path) (rest : list string) : Walk :=
  match rest with
  | [] => Reached (lookup fs base)
  | c :: rest' =>
      match lookup fs base with
      | Some Dir => walk fs (base ++ [c]) rest'
      | Some (File _) => NotADirectory
      | None => NoSuchEntry
      end
  end.

(** [Path.mkdir(exist_ok=True)], without [parents]: the system call fails
    when a component before the last is missing or is not a directory, and
    refuses an existing entry; [exist_ok] forgives that refusal when the
    entry is a directory. *)
Definition mkdir_exist_ok (fs : FileSystem) (p : Path) : Exception + FileSystem :=
  match walk fs [] p with
  | NoSuchEntry =>
      inl (os_error FileNotFoundError "2" "No such file or directory" p)
  | NotADirectory =>
      inl (os_error NotADirectoryError "20" "Not a directory" p)
  | Reached None => inr (fs ++ [(p, Dir)])
  | Reached (Some Dir) => inr fs
  | Reached (Some (File _)) =>
      inl (os_error FileExistsError "17" "File exists" p)
  end.

(** [laspy.open(str(p))] followed by reading [fh.header]. *)
Definition laspy_open (fs : FileSystem) (p : Path) : Exception + Header :=
  match lookup fs p with
  | None => inl (os_error FileNotFoundError "2" "No such file or directory" p)
  | Some Dir => inl (os_error IsADirectoryError "21" "Is a directory" p)
  | Some (File (inl msg)) => inl (mkExc LibraryError msg)
  | Some (File (inr header)) => inr header
  end.

(** ** Features, schema and the observable log *)

Record Feature : Type := mkFeature {
  geometry_type : string;
  coordinates : list (list (float * float));
  prop_filename : string;
  prop_x_min : float;
  prop_x_max : float;
  prop_y_min : float;
  prop_y_max : float;
  prop_points : Z
}.

Record Schema : Type := mkSchema {
  schema_geometry : string;
  schema_properties : list (string * string)
}.

Definition schema : Schema :=
  mkSchema "Polygon"
    [ ("filename", "str:254"); ("x_min", "float"); ("x_max", "float");
      ("y_min", "float"); ("y_max", "float"); ("points", "int") ].

Inductive Event : Type :=
| Print (line : string)
| FionaOpen (path mode driver : string) (sch : Schema) (crs : string)
| FionaWrite (feature : Feature)
| FionaClose.

(** The verdicts of the dataset writer: the message of the exception raised
    by [fiona.open] for a path and a CRS, and by [dst.write] for a record;
    [None] when the call succeeds. *)
Record Env : Type := mkEnv {
  flavour : Flavour;
  fiona_open_error : string -> string -> option string;
  fiona_write_error : Feature -> option string
}.

Record World : Type := mkWorld {
  fs : FileSystem;
  log : list Event
}.

(** ** The monad of the script: state and exceptions *)

Definition M (A : Type) : Type := World -> (Exception + A) * World.

Definition ret {A : Type} (a : A) : M A := fun w => (inr a, w).

Definition bind {A B : Type} (m : M A) (k : A -> M B) : M B :=
  fun w =>
    match m w with
    | (inl e, w') => (inl e, w')
    | (inr a, w') => k a w'
    end.

Definition raise {A : Type} (e : Exception) : M A := fun w => (inl e, w).

(** [try: body  except Exception as e: handler e]; what the body did before
    raising stays done. *)
Definition try_except {A : Type} (body : M A) (handler : Exception -> M A) : M A :=
  fun w =>
    match body w with
    | (inl e, w') => handler e w'
    | (inr a, w') => (inr a, w')
    end.

Definition lift {A : Type} (f : FileSystem -> Exception + A) : M A :=
  fun w => (f (fs w), w).

Definition emit (e : Event) : M unit :=
  fun w => (inr tt, mkWorld (fs w) (log w ++ [e])).

Definition print (line : string) : M unit := emit (Print line).

Declare Scope script_scope.
Delimit Scope script_scope with script.
Notation "x <- m ;; k" := (bind m (fun x => k))
  (at level 61, m at next level, right associativity) : script_scope.
Notation "m ;; k" := (bind m (fun _ => k))
  (at level 61, right associativity) : script_scope.

Local Open Scope script_scope.

(** [for x in xs: body x] *)
Fixpoint for_each {A : Type} (xs : list A) (body : A -> M unit) : M unit :=
  match xs with
  | [] => ret tt
  | x :: rest => body x ;; for_each rest body
  end.

(** ** The script *)

Definition get_las_files (fl : Flavour) (folder_path : Path) : M (list Path) :=
  let folder := folder_path in
  present <- lift (fun fs => inr (path_exists fs folder)) ;;
  if negb present then
    raise (mkExc FileNotFoundError ("Folder not found: " ++ str folder_path))
  else
    lift (fun fs =>
            inr (fold_left (fun files ext => files ++ glob fl fs folder ext)
                           ["*.las"; "*.laz"] [])).

Definition mkdir (p : Path) : M unit :=
  fun w =>
    match mkdir_exist_ok (fs w) p with
    | inl e => (inl e, w)
    | inr fs' => (inr tt, mkWorld fs' (log w))
    end.

(** What a freshly written shapefile is to [laspy]. *)
Definition shapefile_node : Node := File (inl "not a LAS file").

(** [fiona.open(path, 'w', driver=..., schema=..., crs=...)] *)
Definition fiona_open (env : Env) (p : Path) (sch : Schema) (crs : string)
  : M unit :=
  emit (FionaOpen (str p) "w" "ESRI Shapefile" sch crs) ;;
  match fiona_open_error env (str p) crs with
  | Some msg => raise (mkExc LibraryError msg)
  | None => fun w => (inr tt, mkWorld (store (fs w) p shapefile_node) (log w))
  end.

(** [dst.write(feature)] *)
Definition dst_write (env : Env) (feature : Feature) : M unit :=
  match fiona_write_error env feature with
  | Some msg => raise (mkExc LibraryError msg)
  | None => emit (FionaWrite feature)
  end.

Definition make_feature (las_file : Path) (header : Header) : Feature :=
  let bbox_points := create_bounding_box_points header in
  mkFeature "Polygon" [bbox_points] (name las_file)
            (x_min header) (x_max header) (y_min header) (y_max header)
            (point_count header).

(** The body of the loop, with its [try] ... [except Exception]. *)
Definition process_file (env : Env) (las_file : Path) : M unit :=
  try_except
    (header <- lift (fun fs => laspy_open fs las_file) ;;
     dst_write env (make_feature las_file header))
    (fun e =>
       print ("Warning: Could not process " ++ name las_file ++ ": " ++ exc_str e)).

Definition string_of_nat (n : nat) : string :=
  NilEmpty.string_of_uint (Nat.to_uint n).

Definition process_point_clouds (env : Env) (input_folder : Path)
           (output_folder : option Path) (crs : string) : M string :=
  let input_path := input_folder in
  let folder_name := name input_path in
  let output_path :=
    match output_folder with
    | None => truediv input_path "PointCloud_laz_BBOX"
    | Some o => o
    end in
  mkdir output_path ;;
  let shapefile_path :=
    truediv output_path ("PointCloud_laz_BBOX_" ++ folder_name ++ ".shp") in
  las_files <- get_las_files (flavour env) input_folder ;;
  match las_files with
  | [] =>
      raise (mkExc ValueError
                   ("No .las or .laz files found in " ++ str input_folder))
  | _ :: _ =>
      print ("Found " ++ string_of_nat (List.length las_files)
                      ++ " point cloud files") ;;
      print ("Output shapefile: " ++ str shapefile_path) ;;
      fiona_open env shapefile_path schema crs ;;
      for_each las_files (process_file env) ;;
      emit FionaClose ;;
      ret (str shapefile_path)
  end.

(** What the user typed, and what [parser.parse_args()] makes of it. *)
Record CommandLine : Type := mkCommandLine {
  cl_input_folder : Path;
  cl_output : option Path;
  cl_crs : option string
}.

Record Namespace : Type := mkNamespace {
  args_input_folder : Path;
  args_output : option Path;
  args_crs : string
}.

Definition parse_args (cl : CommandLine) : Namespace :=
  mkNamespace (cl_input_folder cl) (cl_output cl)
              (match cl_crs cl with
               | Some c => c
               | None => "EPSG:4326"
               end).

Definition newline : string := String (ascii_of_nat 10) "".

(** [main] returns the exit status of the process. *)
Definition main (env : Env) (cl : CommandLine) (w : World) : Z * World :=
  let args := parse_args cl in
  let guarded :=
    try_except
      (shapefile_path <-
         process_point_clouds env (args_input_folder args) (args_output args)
                              (args_crs args) ;;
       print (newline ++ "Success! Bounding box shapefile created: "
                      ++ shapefile_path) ;;
       print ("Coordinate Reference System: " ++ args_crs args) ;;
       ret 0%Z)
      (fun e => print ("Error: " ++ exc_str e) ;; ret 1%Z) in
  match guarded w with
  | (inr status, w') => (status, w')
  | (inl _, w') => (1%Z, w')
  end.

(** ** Observations on a log *)

Definition printed (l : list Event) : list string :=
  flat_map (fun e => match e with Print s => [s] | _ => [] end) l.

Definition features_written (l : list Event) : list Feature :=
  flat_map (fun e => match e with FionaWrite f => [f] | _ => [] end) l.

Definition datasets_opened (l : list Event) : list (string * string) :=
  flat_map (fun e => match e with
                     | FionaOpen p _ _ _ c => [(p, c)]
                     | _ => []
                     end) l.

(** ** Vocabulary of the statements *)

Definition chars_eqb (a b : list ascii) : bool :=
  if list_eq_dec ascii_dec a b then true else false.

(** [s] ends with [suf]: some tail of [s] is [suf]. *)
Fixpoint is_suffix (suf s : list ascii) : bool :=
  chars_eqb suf s
  || match s with
     | [] => false
     | _ :: t => is_suffix suf t
     end.

Definition ends_with (s suf : string) : bool :=
  is_suffix (list_ascii_of_string suf) (list_ascii_of_string s).

(** The entry name carries one of the two extensions, compared the way the
    flavour compares names. *)
Definition has_las_extension (fl : Flavour) (entry : string) : bool :=
  ends_with (normcase fl entry) ".las" || ends_with (normcase fl entry) ".laz".

(** The same, in any letter case. *)
Definition has_las_extension_any_case (entry : string) : bool :=
  ends_with (lower entry) ".las" || ends_with (lower entry) ".laz".

Definition count {A : Type} (f : A -> bool) (l : list A) : nat :=
  List.length (filter f l).

Definition is_file (n : Node) : bool :=
  match n with
  | File _ => true
  | Dir => false
  end.

(** Counting the direct entries of [folder]: by the kind of the entry and
    by a test on its name. *)
Definition count_entries (kind : Node -> bool) (named : string -> bool)
           (fs : FileSystem) (folder : Path) : nat :=
  count (fun e => is_child_of folder (fst e) && kind (snd e)
                  && named (name (fst e)))%bool fs.

(** A pattern character that stands for itself. *)
Definition literal (pat : list ascii) : Prop :=
  Forall (fun c => Ascii.eqb c "*"%char = false /\ Ascii.eqb c "?"%char = false) pat.

(** The two results of [folder.glob], in the order the loop extends [files]. *)
Definition discover (fl : Flavour) (fs : FileSystem) (folder : Path) : list Path :=
  glob fl fs folder "*.las" ++ glob fl fs folder "*.laz".

Definition output_path_of (input_folder : Path) (output_folder : option Path)
  : Path :=
  match output_folder with
  | None => truediv input_folder "PointCloud_laz_BBOX"
  | Some o => o
  end.

Definition shapefile_path_of (input_folder : Path) (output_folder : option Path)
  : Path :=
  truediv (output_path_of input_folder output_folder)
          ("PointCloud_laz_BBOX_" ++ name input_folder ++ ".shp").

(** What one turn of the loop comes to: the exception caught, or the record
    appended to the dataset. *)
Definition outcome (env : Env) (fs : FileSystem) (las_file : Path)
  : Exception + Feature :=
  match laspy_open fs las_file with
  | inl e => inl e
  | inr header =>
      match fiona_write_error env (make_feature las_file header) with
      | Some msg => inl (mkExc LibraryError msg)
      | None => inr (make_feature las_file header)
      end
  end.

(** Every file of the list is read and its record accepted. *)
Definition processed (env : Env) (fs : FileSystem) (files : list Path) : Prop :=
  Forall (fun p => exists f, outcome env fs p = inr f) files.

Definition warning (las_file : Path) (e : Exception) : string :=
  "Warning: Could not process " ++ name las_file ++ ": " ++ exc_str e.

Definition loop_events (env : Env) (fs : FileSystem) (files : list Path)
  : list Event :=
  map (fun p => match outcome env fs p with
                | inl e => Print (warning p e)
                | inr f => FionaWrite f
                end) files.

(** [==] on floats and on pairs of floats. *)
Definition vertex_eqb (v w : float * float) : bool :=
  (PrimFloat.eqb (fst v) (fst w) && PrimFloat.eqb (snd v) (snd w))%bool.

(** The records a loop over [files] appends, in order. *)
Definition successes (env : Env) (fs : FileSystem) (files : list Path)
  : list Feature :=
  flat_map (fun p => match outcome env fs p with
                     | inl _ => []
                     | inr f => [f]
                     end) files.

(** The CRS [main] hands to [process_point_clouds]. *)
Definition effective_crs (cl : CommandLine) : string :=
  match cl_crs cl with
  | Some c => c
  | None => "EPSG:4326"
  end.

(** A run of the program from a file system, with nothing logged yet. *)
Definition run (env : Env) (cl : CommandLine) (fs0 : FileSystem) : Z * World :=
  main env cl (mkWorld fs0 []).

Definition exit_status (r : Z * World) : Z := fst r.
Definition final_fs (r : Z * World) : FileSystem := fs (snd r).
Definition run_log (r : Z * World) : list Event := log (snd r).

(** Every entry sits in a directory that is itself present. *)
Definition well_formed (fs : FileSystem) : bool :=
  forallb (fun e => match fst e with
                    | [] => false
                    | _ :: _ =>
                        match lookup fs (parent (fst e)) with
                        | Some Dir => true
                        | _ => false
                        end
                    end) fs.

(** An environment in which the dataset writer never raises. *)
Definition willing_writer (fl : Flavour) : Env :=
  mkEnv fl (fun _ _ => None) (fun _ => None).

(** ** Sample worlds *)

(** A survey folder with two readable files, one unreadable file between
    them in discovery order, and a file of another kind. *)
Definition survey_tree : FileSystem :=
  [ (["survey"], Dir);
    (["survey"; "north.las"], File (inr (mkHeader 0 10 0 5 1200)));
    (["survey"; "broken.las"], File (inl "Invalid file signature"));
    (["survey"; "readme.txt"], File (inl "Invalid file signature"));
    (["survey"; "south.laz"], File (inr (mkHeader 10 20 (-5) 0 800))) ].

Definition survey_after_mkdir : FileSystem :=
  survey_tree ++ [ (["survey"; "PointCloud_laz_BBOX"], Dir) ].

Definition survey_command : CommandLine := mkCommandLine ["survey"] None None.

(** A folder with two point clouds, a text file and a subfolder holding a
    third point cloud. *)
Definition scans_tree : FileSystem :=
  [ (["scans"], Dir);
    (["scans"; "a.las"], File (inr (mkHeader 0 1 0 1 7)));
    (["scans"; "notes.txt"], File (inl "not a LAS file"));
    (["scans"; "b.laz"], File (inr (mkHeader 2 3 2 3 9)));
    (["scans"; "old"], Dir);
    (["scans"; "old"; "c.las"], File (inr (mkHeader 4 5 4 5 1))) ].

(** An empty folder, and a command that puts the output inside it under a
    name ending in .las. *)
Definition empty_tree : FileSystem := [ (["survey"], Dir) ].

Definition nested_output_command : CommandLine :=
  mkCommandLine ["survey"] (Some ["survey"; "tiles.las"]) None.

(** ** Vocabulary of the further properties *)

(** The warnings a loop over [files] prints, in order. *)
Definition failures (env : Env) (fs : FileSystem) (files : list Path)
  : list string :=
  flat_map (fun p => match outcome env fs p with
                     | inl e => [warning p e]
                     | inr _ => []
                     end) files.

(** What a run logs between discovery and the loop, and after the loop. *)
Definition opening_events (cl : CommandLine) (found : nat) : list Event :=
  [ Print ("Found " ++ string_of_nat found ++ " point cloud files");
    Print ("Output shapefile: "
             ++ str (shapefile_path_of (cl_input_folder cl) (cl_output cl)));
    FionaOpen (str (shapefile_path_of (cl_input_folder cl) (cl_output cl)))
              "w" "ESRI Shapefile" schema (effective_crs cl) ].

Definition closing_events (cl : CommandLine) : list Event :=
  [ FionaClose;
    Print (newline ++ "Success! Bounding box shapefile created: "
                   ++ str (shapefile_path_of (cl_input_folder cl) (cl_output cl)));
    Print ("Coordinate Reference System: " ++ effective_crs cl) ].

(** The calls made to the dataset writer, in order. *)
Definition writer_calls (l : list Event) : list Event :=
  filter (fun e => match e with
                   | Print _ => false
                   | _ => true
                   end) l.

(** The rectangle a record describes by its own attributes. *)
Definition ring_of_properties (f : Feature) : list (float * float) :=
  [ (prop_x_min f, prop_y_min f); (prop_x_min f, prop_y_max f);
    (prop_x_max f, prop_y_max f); (prop_x_max f, prop_y_min f);
    (prop_x_min f, prop_y_min f) ].

(** Where a run can stop, with its result in each case. *)
Inductive RunCase (env : Env) (cl : CommandLine) (fs0 : FileSystem) : Prop :=
| MkdirFails (e : Exception)
    (Hmk : mkdir_exist_ok fs0 (output_path_of (cl_input_folder cl) (cl_output cl))
           = inl e)
    (Hrun : run env cl fs0
            = (1%Z, mkWorld fs0 [Print ("Error: " ++ exc_str e)]))
| FolderNotFound (fs1 : FileSystem)
    (Hmk : mkdir_exist_ok fs0 (output_path_of (cl_input_folder cl) (cl_output cl))
           = inr fs1)
    (Hin : lookup fs1 (cl_input_folder cl) = None)
    (Hrun : run env cl fs0
            = (1%Z,
               mkWorld fs1 [Print ("Error: " ++ "Folder not found: "
                                             ++ str (cl_input_folder cl))]))
| NoFiles (fs1 : FileSystem)
    (Hmk : mkdir_exist_ok fs0 (output_path_of (cl_input_folder cl) (cl_output cl))
           = inr fs1)
    (Hin : path_exists fs1 (cl_input_folder cl) = true)
    (Hd : discover (flavour env) fs1 (cl_input_folder cl) = [])
    (Hrun : run env cl fs0
            = (1%Z,
               mkWorld fs1 [Print ("Error: " ++ "No .las or .laz files found in "
                                             ++ str (cl_input_folder cl))]))
| OpenFails (fs1 : FileSystem) (msg : string)
    (Hmk : mkdir_exist_ok fs0 (output_path_of (cl_input_folder cl) (cl_output cl))
           = inr fs1)
    (Hd : discover (flavour env) fs1 (cl_input_folder cl) <> [])
    (Ho : fiona_open_error env
            (str (shapefile_path_of (cl_input_folder cl) (cl_output cl)))
            (effective_crs cl) = Some msg)
    (Hrun : run env cl fs0
            = (1%Z,
               mkWorld fs1
                 (opening_events cl
                    (List.length
                       (discover (flavour env) fs1 (cl_input_folder cl)))
                    ++ [Print ("Error: " ++ msg)])))
| Success (fs1 : FileSystem)
    (Hmk : mkdir_exist_ok fs0 (output_path_of (cl_input_folder cl) (cl_output cl))
           = inr fs1)
    (Hd : discover (flavour env) fs1 (cl_input_folder cl) <> [])
    (Ho : fiona_open_error env
            (str (shapefile_path_of (cl_input_folder cl) (cl_output cl)))
            (effective_crs cl) = None)
    (Hrun : run env cl fs0
            = (0%Z,
               mkWorld
                 (store fs1
                        (shapefile_path_of (cl_input_folder cl) (cl_output cl))
                        shapefile_node)
                 (opening_events cl
                    (List.length
                       (discover (flavour env) fs1 (cl_input_folder cl)))
                    ++ loop_events env fs1
                         (discover (flavour env) fs1 (cl_input_folder cl))
                    ++ closing_events cl))).

(** The exception [process_point_clouds] lets through to [main], if any. *)
Definition raised (env : Env) (cl : CommandLine) (fs0 : FileSystem)
  : option Exception :=
  match fst (process_point_clouds env (cl_input_folder cl) (cl_output cl)
                                  (effective_crs cl) (mkWorld fs0 [])) with
  | inl e => Some e
  | inr _ => None
  end.

(** An environment whose writer refuses to open any dataset. *)
Definition refusing_writer (msg : string) : Env :=
  mkEnv Posix (fun _ _ => Some msg) (fun _ => None).

(** A folder in which nothing can be read. *)
Definition unreadable_tree : FileSystem :=
  [ (["survey"], Dir);
    (["survey"; "one.las"], File (inl "Invalid file signature"));
    (["survey"; "two.laz"], File (inl "Unsupported version")) ].

(** ** Lists, strings and paths *)

Lemma path_eqb_eq (p q : Path) : path_eqb p q = true <-> p = q.
Proof.
  unfold path_eqb. destruct (list_eq_dec string_dec p q); split;
    intros; congruence.
Qed.

Lemma path_eqb_refl (p : Path) : path_eqb p p = true.
Proof. apply path_eqb_eq. reflexivity. Qed.

Lemma path_eqb_neq (p q : Path) : path_eqb p q = false <-> p <> q.
Proof.
  unfold path_eqb. destruct (list_eq_dec string_dec p q); split;
    intros; congruence.
Qed.

Lemma chars_eqb_eq (a b : list ascii) : chars_eqb a b = true <-> a = b.
Proof.
  unfold chars_eqb. destruct (list_eq_dec ascii_dec a b); split;
    intros; congruence.
Qed.

Lemma name_truediv (p : Path) (c : string) : name (truediv p c) = c.
Proof. unfold name, truediv. apply last_last. Qed.

Lemma parent_truediv (p : Path) (c : string) : parent (truediv p c) = p.
Proof. unfold parent, truediv. apply removelast_last. Qed.

Lemma truediv_not_nil (p : Path) (c : string) : truediv p c <> [].
Proof. unfold truediv. destruct p; discriminate. Qed.

Lemma is_child_of_truediv (folder : Path) (c : string) :
  is_child_of folder (truediv folder c) = true.
Proof.
  unfold is_child_of. pose proof (truediv_not_nil folder c) as Hn.
  pose proof (parent_truediv folder c) as Hp.
  destruct (truediv folder c); [congruence|].
  rewrite Hp. apply path_eqb_refl.
Qed.

Lemma is_child_of_inv (folder p : Path) :
  is_child_of folder p = true -> p = truediv folder (name p).
Proof.
  unfold is_child_of, parent, name, truediv.
  destruct p as [|c p]; [discriminate|].
  intros H. apply path_eqb_eq in H. rewrite <- H.
  apply app_removelast_last. discriminate.
Qed.

Lemma is_child_of_iff (folder p : Path) :
  is_child_of folder p = true <-> p <> [] /\ parent p = folder.
Proof.
  split.
  - intros H. pose proof (is_child_of_inv _ _ H) as E. split.
    + rewrite E. apply truediv_not_nil.
    + rewrite E. apply parent_truediv.
  - intros [Hn Hp]. unfold is_child_of. destruct p; [congruence|].
    apply path_eqb_eq. exact Hp.
Qed.

Lemma list_ascii_of_string_app (a b : string) :
  list_ascii_of_string (a ++ b)
  = list_ascii_of_string a ++ list_ascii_of_string b.
Proof. induction a as [|c a IH]; simpl; [reflexivity|]. now rewrite IH. Qed.

Lemma last_app_cons {A : Type} (l : list A) (x : A) (t : list A) (d : A) :
  last (l ++ x :: t) d = last (x :: t) d.
Proof.
  induction l as [|y l IH]; [reflexivity|].
  simpl app. rewrite <- IH. simpl. destruct (l ++ x :: t) eqn:E; [|reflexivity].
  destruct l; discriminate.
Qed.

Lemma is_suffix_iff (suf s : list ascii) :
  is_suffix suf s = true <-> exists pre, s = pre ++ suf.
Proof.
  induction s as [|c s IH]; simpl.
  - rewrite orb_false_r, chars_eqb_eq. split.
    + intros ->. exists []. reflexivity.
    + intros [pre E]. symmetry in E. apply app_eq_nil in E. tauto.
  - rewrite orb_true_iff, chars_eqb_eq, IH. split.
    + intros [-> | [pre ->]].
      * exists []. reflexivity.
      * exists (c :: pre). reflexivity.
    + intros [[|d pre] E].
      * left. symmetry. exact E.
      * right. exists pre. simpl in E. congruence.
Qed.

(** A name ends in at most one of two suffixes whose last characters differ. *)
Lemma is_suffix_last (suf s : list ascii) (d : ascii) :
  suf <> [] -> is_suffix suf s = true -> last s d = last suf d.
Proof.
  intros Hn H. apply is_suffix_iff in H. destruct H as [pre ->].
  destruct suf as [|x t]; [congruence|]. apply last_app_cons.
Qed.

(** ** The wildcard matcher *)

Lemma wildcard_literal (pat s : list ascii) :
  literal pat -> wildcard pat s = chars_eqb pat s.
Proof.
  intros L. revert s. induction L as [|c pat [Hs Hq] L IH]; intros s.
  - destruct s; reflexivity.
  - simpl. rewrite Hs, Hq. destruct s as [|d s].
    + symmetry. apply not_true_is_false. rewrite chars_eqb_eq. discriminate.
    + rewrite IH. destruct (Ascii.eqb c d) eqn:E.
      * apply Ascii.eqb_eq in E. subst d. simpl.
        destruct (chars_eqb pat s) eqn:F.
        -- apply chars_eqb_eq in F. subst. symmetry. now apply chars_eqb_eq.
        -- symmetry. apply not_true_is_false. rewrite chars_eqb_eq.
           intros G. injection G as G. apply chars_eqb_eq in G. congruence.
      * simpl. symmetry. apply not_true_is_false. rewrite chars_eqb_eq.
        intros G. injection G as G _. subst. rewrite Ascii.eqb_refl in E.
        discriminate.
Qed.

Lemma wildcard_star_literal (suf s : list ascii) :
  literal suf -> wildcard ("*"%char :: suf) s = is_suffix suf s.
Proof.
  intros L. simpl.
  induction s as [|c s IH]; simpl.
  - now rewrite wildcard_literal.
  - rewrite wildcard_literal by assumption. now rewrite IH.
Qed.

Lemma literal_las : literal (list_ascii_of_string ".las").
Proof. repeat constructor. Qed.

Lemma literal_laz : literal (list_ascii_of_string ".laz").
Proof. repeat constructor. Qed.

Lemma fnmatch_las (fl : Flavour) (entry : string) :
  fnmatch fl entry "*.las" = ends_with (normcase fl entry) ".las".
Proof.
  unfold fnmatch, ends_with.
  replace (list_ascii_of_string (normcase fl "*.las"))
    with ("*"%char :: list_ascii_of_string ".las")
    by (destruct fl; reflexivity).
  apply wildcard_star_literal, literal_las.
Qed.

Lemma fnmatch_laz (fl : Flavour) (entry : string) :
  fnmatch fl entry "*.laz" = ends_with (normcase fl entry) ".laz".
Proof.
  unfold fnmatch, ends_with.
  replace (list_ascii_of_string (normcase fl "*.laz"))
    with ("*"%char :: list_ascii_of_string ".laz")
    by (destruct fl; reflexivity).
  apply wildcard_star_literal, literal_laz.
Qed.

Lemma las_excludes_laz (s : string) :
  ends_with s ".las" = true -> ends_with s ".laz" = false.
Proof.
  unfold ends_with. intros H. apply not_true_is_false. intros G.
  apply (is_suffix_last _ _ "x"%char) in H; [|discriminate].
  apply (is_suffix_last _ _ "x"%char) in G; [|discriminate].
  rewrite H in G. discriminate.
Qed.

Lemma fnmatch_disjoint (fl : Flavour) (entry : string) :
  fnmatch fl entry "*.las" = true -> fnmatch fl entry "*.laz" = false.
Proof. rewrite fnmatch_las, fnmatch_laz. apply las_excludes_laz. Qed.

Lemma has_las_extension_fnmatch (fl : Flavour) (entry : string) :
  has_las_extension fl entry
  = (fnmatch fl entry "*.las" || fnmatch fl entry "*.laz")%bool.
Proof. unfold has_las_extension. now rewrite fnmatch_las, fnmatch_laz. Qed.

(** ** The directory tree *)

Lemma assoc_app_found (fs extra : FileSystem) (p : Path) (n : Node) :
  assoc fs p = Some n -> assoc (fs ++ extra) p = Some n.
Proof.
  induction fs as [|[q m] fs IH]; simpl; [discriminate|].
  destruct (path_eqb q p); auto.
Qed.

Lemma assoc_app_missing (fs extra : FileSystem) (p : Path) :
  assoc fs p = None -> assoc (fs ++ extra) p = assoc extra p.
Proof.
  induction fs as [|[q m] fs IH]; simpl; [reflexivity|].
  destruct (path_eqb q p); [discriminate|auto].
Qed.

Lemma assoc_store (fs : FileSystem) (p q : Path) (n : Node) :
  assoc (store fs p n) q = if path_eqb p q then Some n else assoc fs q.
Proof.
  induction fs as [|[r m] fs IH]; simpl.
  - reflexivity.
  - destruct (path_eqb r p) eqn:E; simpl.
    + apply path_eqb_eq in E. subst r. destruct (path_eqb p q); reflexivity.
    + destruct (path_eqb r q) eqn:F.
      * destruct (path_eqb p q) eqn:G; [|reflexivity].
        apply path_eqb_eq in F, G. subst. rewrite path_eqb_refl in E.
        discriminate.
      * exact IH.
Qed.

Lemma lookup_store_other (fs : FileSystem) (p q : Path) (n : Node) :
  p <> q -> lookup (store fs p n) q = lookup fs q.
Proof.
  intros H. unfold lookup. destruct q; [reflexivity|].
  rewrite assoc_store. apply path_eqb_neq in H. now rewrite H.
Qed.

Lemma laspy_open_store_other (fs : FileSystem) (p q : Path) (n : Node) :
  p <> q -> laspy_open (store fs p n) q = laspy_open fs q.
Proof. intros H. unfold laspy_open. now rewrite lookup_store_other. Qed.

Lemma in_scandir (fs : FileSystem) (folder : Path) (entry : string) :
  In entry (scandir fs folder)
  <-> exists node, In (truediv folder entry, node) fs.
Proof.
  unfold scandir. rewrite in_map_iff. split.
  - intros [[p node] [E H]]. apply filter_In in H. destruct H as [H C].
    simpl in *. apply is_child_of_inv in C. rewrite E in C. subst p.
    now exists node.
  - intros [node H]. exists (truediv folder entry, node). split.
    + apply name_truediv.
    + apply filter_In. split; [assumption|]. apply is_child_of_truediv.
Qed.

Lemma in_glob (fl : Flavour) (fs : FileSystem) (folder : Path) (pat : string)
      (p : Path) :
  lookup fs folder = Some Dir ->
  (In p (glob fl fs folder pat)
   <-> (exists node, In (p, node) fs)
       /\ is_child_of folder p = true /\ fnmatch fl (name p) pat = true).
Proof.
  intros D. unfold glob. rewrite D, in_map_iff. split.
  - intros [entry [E H]]. apply filter_In in H. destruct H as [H F]. subst p.
    rewrite name_truediv. repeat split.
    + now apply in_scandir.
    + apply is_child_of_truediv.
    + exact F.
  - intros [[node H] [C F]]. exists (name p).
    pose proof (is_child_of_inv _ _ C) as E. split; [now symmetry|].
    apply filter_In. split; [|assumption].
    apply in_scandir. exists node. now rewrite <- E.
Qed.

Lemma glob_not_dir (fl : Flavour) (fs : FileSystem) (folder : Path) (pat : string) :
  lookup fs folder <> Some Dir -> glob fl fs folder pat = [].
Proof.
  intros H. unfold glob. destruct (lookup fs folder) as [[|c]|]; congruence.
Qed.

Lemma glob_name_matches (fl : Flavour) (fs : FileSystem) (folder : Path)
      (pat : string) :
  Forall (fun p => fnmatch fl (name p) pat = true /\ is_child_of folder p = true)
         (glob fl fs folder pat).
Proof.
  unfold glob. destruct (lookup fs folder) as [[|c]|]; try constructor.
  apply Forall_forall. intros p H. apply in_map_iff in H.
  destruct H as [entry [E H]]. apply filter_In in H. subst p.
  rewrite name_truediv. split; [tauto|apply is_child_of_truediv].
Qed.

Lemma count_split {A : Type} (f g : A -> bool) (l : list A) :
  (forall x, f x = true -> g x = false) ->
  count f l + count g l = count (fun x => f x || g x)%bool l.
Proof.
  intros D. unfold count. induction l as [|x l IH]; [reflexivity|].
  simpl. destruct (f x) eqn:F.
  - rewrite (D x F). simpl. now rewrite <- IH.
  - destruct (g x); simpl; rewrite <- IH; [apply Nat.add_succ_r|reflexivity].
Qed.

Lemma count_ext {A : Type} (f g : A -> bool) (l : list A) :
  (forall x, f x = g x) -> count f l = count g l.
Proof.
  intros E. unfold count. now rewrite (filter_ext f g E).
Qed.

Lemma length_discover (fl : Flavour) (fs : FileSystem) (folder : Path) :
  lookup fs folder = Some Dir ->
  List.length (discover fl fs folder)
  = count (has_las_extension fl) (scandir fs folder).
Proof.
  intros D. unfold discover, glob. rewrite D.
  rewrite length_app, !length_map.
  rewrite (count_ext (has_las_extension fl) _ _ (has_las_extension_fnmatch fl)).
  apply (count_split (fun n => fnmatch fl n "*.las") (fun n => fnmatch fl n "*.laz")).
  apply fnmatch_disjoint.
Qed.

(** ** Equations of the script *)

Lemma get_las_files_eq (fl : Flavour) (folder : Path) (w : World) :
  get_las_files fl folder w =
    if path_exists (fs w) folder
    then (inr (discover fl (fs w) folder), w)
    else (inl (mkExc FileNotFoundError ("Folder not found: " ++ str folder)), w).
Proof.
  unfold get_las_files, bind, lift, raise, discover.
  destruct (path_exists (fs w) folder); reflexivity.
Qed.

Lemma process_file_eq (env : Env) (las_file : Path) (w : World) :
  process_file env las_file w =
    (inr tt,
     mkWorld (fs w)
             (log w ++ [match outcome env (fs w) las_file with
                        | inl e => Print (warning las_file e)
                        | inr f => FionaWrite f
                        end])).
Proof.
  unfold process_file, try_except, bind, lift, dst_write, outcome, print, emit,
    raise, warning.
  destruct (laspy_open (fs w) las_file) as [e|header]; [reflexivity|].
  destruct (fiona_write_error env (make_feature las_file header));
    reflexivity.
Qed.

Lemma for_each_process_file (env : Env) (files : list Path) (w : World) :
  for_each files (process_file env) w =
    (inr tt, mkWorld (fs w) (log w ++ loop_events env (fs w) files)).
Proof.
  revert w. induction files as [|p files IH]; intros w.
  - destruct w as [f l]. simpl. unfold ret. now rewrite app_nil_r.
  - simpl. unfold bind. rewrite process_file_eq, IH. simpl.
    now rewrite <- app_assoc.
Qed.

(** The whole of [process_point_clouds], by the place where it stops. *)
Lemma process_point_clouds_eq (env : Env) (input_folder : Path)
      (output_folder : option Path) (crs : string) (fs0 : FileSystem)
      (log0 : list Event) :
  process_point_clouds env input_folder output_folder crs (mkWorld fs0 log0) =
    let shp := shapefile_path_of input_folder output_folder in
    match mkdir_exist_ok fs0 (output_path_of input_folder output_folder) with
    | inl e => (inl e, mkWorld fs0 log0)
    | inr fs1 =>
        if path_exists fs1 input_folder then
          match discover (flavour env) fs1 input_folder with
          | [] =>
              (inl (mkExc ValueError
                          ("No .las or .laz files found in " ++ str input_folder)),
               mkWorld fs1 log0)
          | p :: rest =>
              let opening :=
                [ Print ("Found " ++ string_of_nat (S (List.length rest))
                                  ++ " point cloud files");
                  Print ("Output shapefile: " ++ str shp);
                  FionaOpen (str shp) "w" "ESRI Shapefile" schema crs ] in
              match fiona_open_error env (str shp) crs with
              | Some msg =>
                  (inl (mkExc LibraryError msg), mkWorld fs1 (log0 ++ opening))
              | None =>
                  let fs2 := store fs1 shp shapefile_node in
                  (inr (str shp),
                   mkWorld fs2 (log0 ++ opening
                                     ++ loop_events env fs2 (p :: rest)
                                     ++ [FionaClose]))
              end
          end
        else
          (inl (mkExc FileNotFoundError
                      ("Folder not found: " ++ str input_folder)),
           mkWorld fs1 log0)
    end.
Proof.
  unfold process_point_clouds, shapefile_path_of.
  fold (output_path_of input_folder output_folder).
  set (out := output_path_of input_folder output_folder).
  cbv zeta. unfold bind at 1. unfold mkdir at 1. simpl fs.
  destruct (mkdir_exist_ok fs0 out) as [e|fs1]; [reflexivity|].
  unfold bind at 1. rewrite get_las_files_eq. simpl fs.
  destruct (path_exists fs1 input_folder); [|reflexivity].
  destruct (discover (flavour env) fs1 input_folder) as [|p rest];
    [reflexivity|].
  cbv beta iota. unfold bind, print, emit, fiona_open, bind, emit.
  cbn [fs log List.length].
  destruct (fiona_open_error env _ crs) as [msg|].
  - unfold raise. now rewrite <- !app_assoc.
  - rewrite for_each_process_file. unfold ret. cbn [fs log].
    now rewrite <- !app_assoc.
Qed.

Lemma main_eq (env : Env) (cl : CommandLine) (w : World) :
  main env cl w =
    match process_point_clouds env (cl_input_folder cl) (cl_output cl)
                               (effective_crs cl) w with
    | (inr path, w') =>
        (0%Z,
         mkWorld (fs w')
                 (log w'
                  ++ [ Print (newline ++ "Success! Bounding box shapefile created: "
                                      ++ path);
                       Print ("Coordinate Reference System: " ++ effective_crs cl) ]))
    | (inl e, w') =>
        (1%Z, mkWorld (fs w') (log w' ++ [Print ("Error: " ++ exc_str e)]))
    end.
Proof.
  unfold main, try_except, bind, print, emit, ret, parse_args.
  cbn [args_input_folder args_output args_crs]. fold (effective_crs cl).
  destruct (process_point_clouds _ _ _ _ w) as [[e|path] w'];
    cbn [fs log]; [reflexivity|].
  now rewrite <- app_assoc.
Qed.

Lemma features_written_app (l1 l2 : list Event) :
  features_written (l1 ++ l2) = features_written l1 ++ features_written l2.
Proof. apply flat_map_app. Qed.

Lemma datasets_opened_app (l1 l2 : list Event) :
  datasets_opened (l1 ++ l2) = datasets_opened l1 ++ datasets_opened l2.
Proof. apply flat_map_app. Qed.

Lemma printed_app (l1 l2 : list Event) :
  printed (l1 ++ l2) = printed l1 ++ printed l2.
Proof. apply flat_map_app. Qed.

Lemma features_written_loop (env : Env) (fs : FileSystem) (files : list Path) :
  features_written (loop_events env fs files) = successes env fs files.
Proof.
  unfold features_written, loop_events, successes.
  induction files as [|p files IH]; [reflexivity|].
  simpl. rewrite IH. destruct (outcome env fs p); reflexivity.
Qed.

Lemma datasets_opened_loop (env : Env) (fs : FileSystem) (files : list Path) :
  datasets_opened (loop_events env fs files) = [].
Proof.
  unfold datasets_opened, loop_events.
  induction files as [|p files IH]; [reflexivity|].
  simpl. rewrite IH. destruct (outcome env fs p); reflexivity.
Qed.

Lemma features_written_cons (e : Event) (l : list Event) :
  features_written (e :: l)
  = match e with
    | FionaWrite f => f :: features_written l
    | _ => features_written l
    end.
Proof. destruct e; reflexivity. Qed.

Lemma printed_cons (e : Event) (l : list Event) :
  printed (e :: l)
  = match e with
    | Print line => line :: printed l
    | _ => printed l
    end.
Proof. destruct e; reflexivity. Qed.

Lemma datasets_opened_cons (e : Event) (l : list Event) :
  datasets_opened (e :: l)
  = match e with
    | FionaOpen p _ _ _ c => (p, c) :: datasets_opened l
    | _ => datasets_opened l
    end.
Proof. destruct e; reflexivity. Qed.

Lemma features_written_map_write (l : list Feature) :
  features_written (map FionaWrite l) = l.
Proof.
  induction l as [|f l IH]; [reflexivity|].
  cbn [map]. rewrite features_written_cons. now rewrite IH.
Qed.

Lemma printed_map_write (l : list Feature) : printed (map FionaWrite l) = [].
Proof.
  induction l as [|f l IH]; [reflexivity|].
  cbn [map]. now rewrite printed_cons.
Qed.


Lemma discover_not_dir (fl : Flavour) (tree : FileSystem) (folder : Path) :
  lookup tree folder <> Some Dir -> discover fl tree folder = [].
Proof. intros H. unfold discover. now rewrite !glob_not_dir. Qed.

Lemma discover_nonempty_exists (fl : Flavour) (tree : FileSystem) (folder : Path) :
  discover fl tree folder <> [] -> path_exists tree folder = true.
Proof.
  intros H. unfold path_exists. destruct (lookup tree folder) eqn:D; [reflexivity|].
  exfalso. apply H. apply discover_not_dir. congruence.
Qed.

Lemma discover_has_extension (fl : Flavour) (tree : FileSystem) (folder p : Path) :
  In p (discover fl tree folder) ->
  has_las_extension fl (name p) = true /\ is_child_of folder p = true.
Proof.
  unfold discover. rewrite in_app_iff, has_las_extension_fnmatch, orb_true_iff.
  intros [H|H];
    [pose proof (glob_name_matches fl tree folder "*.las") as F
    |pose proof (glob_name_matches fl tree folder "*.laz") as F];
    rewrite Forall_forall in F; destruct (F p H); tauto.
Qed.

(** The name of the dataset file carries neither extension, so the dataset
    is never one of the files the loop reads. *)
Lemma normcase_app_shp (fl : Flavour) (a : string) :
  exists pre,
    list_ascii_of_string (normcase fl (a ++ ".shp"))
    = pre ++ list_ascii_of_string ".shp".
Proof.
  destruct fl; simpl normcase.
  - exists (list_ascii_of_string a). apply list_ascii_of_string_app.
  - exists (map lower_ascii (list_ascii_of_string a)). unfold lower.
    rewrite list_ascii_of_string_of_list_ascii, list_ascii_of_string_app, map_app.
    reflexivity.
Qed.

Lemma shapefile_name_no_extension (fl : Flavour) (a : string) :
  has_las_extension fl (a ++ ".shp") = false.
Proof.
  unfold has_las_extension, ends_with.
  destruct (normcase_app_shp fl a) as [pre ->].
  apply orb_false_iff. split; apply not_true_is_false; intros H;
    apply (is_suffix_last _ _ "x"%char) in H; try discriminate;
    cbn [list_ascii_of_string] in H; rewrite last_app_cons in H;
    discriminate.
Qed.

Lemma string_app_assoc (a b c : string) : ((a ++ b) ++ c = a ++ b ++ c)%string.
Proof. induction a as [|x a IH]; simpl; [reflexivity|]. now rewrite IH. Qed.

Lemma discovered_not_shapefile (fl : Flavour) (tree : FileSystem)
      (input_folder : Path) (output_folder : option Path) (p : Path) :
  In p (discover fl tree input_folder) ->
  shapefile_path_of input_folder output_folder <> p.
Proof.
  intros H E. apply discover_has_extension in H. destruct H as [H _].
  rewrite <- E in H. unfold shapefile_path_of in H. rewrite name_truediv in H.
  rewrite <- string_app_assoc, shapefile_name_no_extension in H. discriminate.
Qed.

Lemma outcome_store_other (env : Env) (tree : FileSystem) (p q : Path) (n : Node) :
  p <> q -> outcome env (store tree p n) q = outcome env tree q.
Proof. intros H. unfold outcome. now rewrite laspy_open_store_other. Qed.

Lemma loop_events_ext (env : Env) (t1 t2 : FileSystem) (files : list Path) :
  (forall p, In p files -> outcome env t1 p = outcome env t2 p) ->
  loop_events env t1 files = loop_events env t2 files.
Proof.
  intros H. unfold loop_events. apply map_ext_in. intros p I. now rewrite H.
Qed.

Lemma loop_events_discovered (env : Env) (tree : FileSystem)
      (input_folder : Path) (output_folder : option Path) (files : list Path) :
  files = discover (flavour env) tree input_folder ->
  loop_events env
    (store tree (shapefile_path_of input_folder output_folder) shapefile_node)
    files
  = loop_events env tree files.
Proof.
  intros E. apply loop_events_ext. intros p I. apply outcome_store_other.
  apply (discovered_not_shapefile (flavour env) tree). now rewrite <- E.
Qed.

Lemma loop_events_app (env : Env) (tree : FileSystem) (l1 l2 : list Path) :
  loop_events env tree (l1 ++ l2)
  = loop_events env tree l1 ++ loop_events env tree l2.
Proof. apply map_app. Qed.

Lemma successes_app (env : Env) (tree : FileSystem) (l1 l2 : list Path) :
  successes env tree (l1 ++ l2) = successes env tree l1 ++ successes env tree l2.
Proof. apply flat_map_app. Qed.

Lemma outcome_filename (env : Env) (tree : FileSystem) (p : Path) (f : Feature) :
  outcome env tree p = inr f -> prop_filename f = name p.
Proof.
  unfold outcome. destruct (laspy_open tree p) as [e|h]; [discriminate|].
  destruct (fiona_write_error env _); [discriminate|].
  intros E. injection E as <-. reflexivity.
Qed.

Section AllProcessed.

Variables (env : Env) (tree : FileSystem).

Lemma loop_events_all_ok (files : list Path) :
  processed env tree files ->
  loop_events env tree files = map FionaWrite (successes env tree files).
Proof.
  unfold loop_events, successes.
  induction 1 as [|p l [f E] _ IH]; [reflexivity|].
  cbn [map flat_map]. rewrite E, IH. reflexivity.
Qed.

Lemma successes_all_ok_length (files : list Path) :
  processed env tree files ->
  List.length (successes env tree files) = List.length files.
Proof.
  unfold successes.
  induction 1 as [|p l [f E] _ IH]; [reflexivity|].
  cbn [flat_map]. rewrite E. simpl. f_equal. exact IH.
Qed.

Lemma successes_all_ok_names (files : list Path) :
  processed env tree files ->
  map prop_filename (successes env tree files) = map name files.
Proof.
  unfold successes.
  induction 1 as [|p l [f E] _ IH]; [reflexivity|].
  cbn [flat_map]. rewrite E. simpl. f_equal.
  - exact (outcome_filename _ _ _ _ E).
  - exact IH.
Qed.

End AllProcessed.

Lemma join_snoc (sep : string) (l : list string) (c : string) :
  l <> [] -> join sep (l ++ [c]) = (join sep l ++ sep ++ c)%string.
Proof.
  induction l as [|x l IH]; [congruence|]. intros _.
  destruct l as [|y l].
  - reflexivity.
  - change (join sep ((x :: y :: l) ++ [c]))
      with (x ++ sep ++ join sep ((y :: l) ++ [c]))%string.
    rewrite IH by discriminate.
    change (join sep (x :: y :: l)) with (x ++ sep ++ join sep (y :: l))%string.
    now rewrite !string_app_assoc.
Qed.

Lemma str_truediv (p : Path) (c : string) :
  p <> [] -> str (truediv p c) = (str p ++ "/" ++ c)%string.
Proof.
  intros H. unfold str, truediv. destruct p as [|x p]; [congruence|].
  destruct ((x :: p) ++ [c]) eqn:E; [destruct p; discriminate|].
  rewrite <- E. now apply join_snoc.
Qed.

Lemma lookup_store_same (tree : FileSystem) (p : Path) (n : Node) :
  p <> [] -> lookup (store tree p n) p = Some n.
Proof.
  intros H. unfold lookup. destruct p; [congruence|].
  now rewrite assoc_store, path_eqb_refl.
Qed.

Lemma count_scandir (named : string -> bool) (tree : FileSystem) (folder : Path) :
  count named (scandir tree folder)
  = count_entries is_file named tree folder
    + count_entries (fun n => negb (is_file n)) named tree folder.
Proof.
  unfold count_entries, count, scandir.
  induction tree as [|[p n] tree IH]; [reflexivity|].
  cbn [filter map fst snd].
  destruct (is_child_of folder p); cbn [andb filter map fst snd]; [|exact IH].
  destruct (named (name p)), (is_file n);
    cbn [andb negb filter List.length]; rewrite IH; lia.
Qed.

Lemma count_entries_in (kind : Node -> bool) (named : string -> bool)
      (tree : FileSystem) (folder : Path) :
  count_entries kind named tree folder = 0 ->
  forall p n, In (p, n) tree -> is_child_of folder p = true ->
              named (name p) = true -> kind n = false.
Proof.
  unfold count_entries, count. intros Z p n I C T.
  apply length_zero_iff_nil in Z. apply not_true_is_false. intros K.
  assert (J : In (p, n)
                 (filter (fun e => is_child_of folder (fst e) && kind (snd e)
                                   && named (name (fst e)))%bool tree)).
  { apply filter_In. split; [assumption|]. cbn [fst snd]. now rewrite C, K, T. }
  rewrite Z in J. destruct J.
Qed.

(** ** Discovery *)

(** C1 (amended): in a directory that holds N files whose name ends in
    .las or .laz under the case rule of the platform (exact lower case on
    POSIX, any letter case on Windows) and M other files, and no
    subdirectory with such a name, [get_las_files] returns exactly N paths,
    whatever M is: the files of the directory itself with such a name, never
    an entry further down. *)
Theorem get_las_files_count (fl : Flavour) (fs0 : FileSystem) (folder : Path)
        (lg : list Event) (N M : nat) :
  lookup fs0 folder = Some Dir ->
  count_entries is_file (has_las_extension fl) fs0 folder = N ->
  count_entries is_file (fun entry => negb (has_las_extension fl entry))
                fs0 folder = M ->
  count_entries (fun n => negb (is_file n)) (has_las_extension fl) fs0 folder
  = 0 ->
  exists files,
    get_las_files fl folder (mkWorld fs0 lg) = (inr files, mkWorld fs0 lg)
    /\ List.length files = N
    /\ (forall p,
           In p files
           <-> (exists las, In (p, File las) fs0)
               /\ p <> [] /\ parent p = folder
               /\ has_las_extension fl (name p) = true)
    /\ (fl = Windows ->
        List.length files
        = count_entries is_file has_las_extension_any_case fs0 folder).
Proof.
  intros D HN _ HZ. exists (discover fl fs0 folder).
  rewrite get_las_files_eq. cbn [fs]. unfold path_exists. rewrite D.
  assert (L : List.length (discover fl fs0 folder) = N)
    by (rewrite length_discover, count_scandir, HN, HZ by assumption; lia).
  split; [reflexivity|]. split; [exact L|]. split.
  - intros p. unfold discover. rewrite in_app_iff, !in_glob by assumption.
    pose proof (is_child_of_iff folder p) as C.
    assert (E : has_las_extension fl (name p) = true
                <-> fnmatch fl (name p) "*.las" = true
                    \/ fnmatch fl (name p) "*.laz" = true)
      by (rewrite has_las_extension_fnmatch; apply orb_true_iff).
    split.
    + intros H.
      assert (G : (exists node, In (p, node) fs0)
                  /\ is_child_of folder p = true
                  /\ has_las_extension fl (name p) = true) by tauto.
      destruct G as [[node I] [Hc T]]. split; [|tauto].
      pose proof (count_entries_in _ _ _ _ HZ p node I Hc T) as K.
      destruct node as [|las]; [discriminate|]. now exists las.
    + intros [[las I] [Hn [Hp T]]].
      assert (exists node, In (p, node) fs0) by now exists (File las).
      tauto.
  - intros ->. rewrite L. now subst N.
Qed.

Lemma get_las_files_count_witness :
  exists files,
    get_las_files Posix ["scans"] (mkWorld scans_tree [])
    = (inr files, mkWorld scans_tree [])
    /\ List.length files = 2
    /\ (forall p,
           In p files
           <-> (exists las, In (p, File las) scans_tree)
               /\ p <> [] /\ parent p = ["scans"]
               /\ has_las_extension Posix (name p) = true)
    /\ (Posix = Windows ->
        List.length files
        = count_entries is_file has_las_extension_any_case scans_tree ["scans"]).
Proof.
  apply (get_las_files_count Posix scans_tree ["scans"] [] 2 1); reflexivity.
Defined.

(** C1 as stated fails: on POSIX a file named TILE.LAS has the extension in
    another letter case and is not returned. *)
Lemma get_las_files_case_sensitive_on_posix :
  ~ (forall (fl : Flavour) (fs0 : FileSystem) (folder : Path) (lg : list Event)
            (N M : nat),
        lookup fs0 folder = Some Dir ->
        count_entries is_file has_las_extension_any_case fs0 folder = N ->
        count_entries is_file
                      (fun entry => negb (has_las_extension_any_case entry))
                      fs0 folder = M ->
        count_entries (fun n => negb (is_file n)) (fun _ => true) fs0 folder = 0 ->
        exists files,
          get_las_files fl folder (mkWorld fs0 lg) = (inr files, mkWorld fs0 lg)
          /\ List.length files = N).
Proof.
  intros H.
  destruct (H Posix
              [ (["scans"], Dir);
                (["scans"; "TILE.LAS"], File (inr (mkHeader 0 1 0 1 7))) ]
              ["scans"] [] 1 0 eq_refl eq_refl eq_refl eq_refl) as [files [E L]].
  vm_compute in E. injection E as E. subst files. discriminate L.
Qed.

(** C2: for every header the extractor returns the five vertices
    (x_min,y_min), (x_min,y_max), (x_max,y_max), (x_max,y_min), (x_min,y_min)
    in this order, first and last identical; for the extents 0, 10, 0, 5 it
    returns (0,0), (0,5), (10,5), (10,0), (0,0). *)
Theorem create_bounding_box_points_vertices :
  (forall h : Header,
      create_bounding_box_points h =
        [ (x_min h, y_min h); (x_min h, y_max h); (x_max h, y_max h);
          (x_max h, y_min h); (x_min h, y_min h) ]
      /\ hd_error (create_bounding_box_points h)
         = Some (last (create_bounding_box_points h) (x_max h, y_max h)))
  /\ (forall n : Z,
         create_bounding_box_points (mkHeader 0 10 0 5 n) =
           [ (0, 0); (0, 5); (10, 5); (10, 0); (0, 0) ])%float.
Proof.
  split.
  - intros h. split; reflexivity.
  - intros n. reflexivity.
Qed.



(** ** The pipeline *)

(** C4: in a run over K discovered files of which exactly one cannot be
    opened or read, the process exits with status 0, the dataset receives
    the K-1 records of the other files in discovery order, and one warning
    naming the failing file and its error is printed at the place of the
    failing file. *)
Theorem one_unreadable_file_is_skipped (env : Env) (cl : CommandLine)
        (fs0 fs1 : FileSystem) (pre post : list Path) (bad : Path)
        (e : Exception) :
  mkdir_exist_ok fs0 (output_path_of (cl_input_folder cl) (cl_output cl))
  = inr fs1 ->
  discover (flavour env) fs1 (cl_input_folder cl) = pre ++ bad :: post ->
  fiona_open_error env
    (str (shapefile_path_of (cl_input_folder cl) (cl_output cl)))
    (effective_crs cl) = None ->
  laspy_open fs1 bad = inl e ->
  Forall (fun p => exists f, outcome env fs1 p = inr f) (pre ++ post) ->
  let r := run env cl fs0 in
  let K := List.length (pre ++ bad :: post) in
  exit_status r = 0%Z
  /\ List.length (features_written (run_log r)) = K - 1
  /\ features_written (run_log r) = successes env fs1 (pre ++ post)
  /\ map prop_filename (features_written (run_log r)) = map name (pre ++ post)
  /\ printed (run_log r)
     = [ "Found " ++ string_of_nat K ++ " point cloud files";
         "Output shapefile: "
           ++ str (shapefile_path_of (cl_input_folder cl) (cl_output cl));
         "Warning: Could not process " ++ name bad ++ ": " ++ exc_str e;
         newline ++ "Success! Bounding box shapefile created: "
           ++ str (shapefile_path_of (cl_input_folder cl) (cl_output cl));
         "Coordinate Reference System: " ++ effective_crs cl ]%string
  /\ exists opening closing,
      run_log r
      = opening
          ++ (map FionaWrite (successes env fs1 pre)
                ++ Print ("Warning: Could not process " ++ name bad ++ ": "
                                                          ++ exc_str e)
                :: map FionaWrite (successes env fs1 post))
          ++ closing.
Proof.
  intros Hmk Hd Hopen Hbad Hok r K.
  assert (Hpre : Forall (fun p => exists f, outcome env fs1 p = inr f) pre)
    by (apply Forall_app in Hok; tauto).
  assert (Hpost : Forall (fun p => exists f, outcome env fs1 p = inr f) post)
    by (apply Forall_app in Hok; tauto).
  assert (Hb : outcome env fs1 bad = inl e)
    by (unfold outcome; now rewrite Hbad).
  assert (Hex : path_exists fs1 (cl_input_folder cl) = true).
  { apply (discover_nonempty_exists (flavour env)). rewrite Hd.
    destruct pre; discriminate. }
  assert (Hloop :
            loop_events env
              (store fs1 (shapefile_path_of (cl_input_folder cl) (cl_output cl))
                     shapefile_node)
              (pre ++ bad :: post)
            = map FionaWrite (successes env fs1 pre)
                ++ Print (warning bad e)
                :: map FionaWrite (successes env fs1 post)).
  { rewrite loop_events_discovered by (symmetry; exact Hd).
    rewrite loop_events_app. cbn [loop_events map]. rewrite Hb.
    fold (loop_events env fs1 post).
    now rewrite !loop_events_all_ok by assumption. }
  assert (Hrun :
            r = (0%Z,
                 mkWorld
                   (store fs1
                          (shapefile_path_of (cl_input_folder cl) (cl_output cl))
                          shapefile_node)
                   ([ Print ("Found " ++ string_of_nat K ++ " point cloud files");
                      Print ("Output shapefile: "
                               ++ str (shapefile_path_of (cl_input_folder cl)
                                                         (cl_output cl)));
                      FionaOpen
                        (str (shapefile_path_of (cl_input_folder cl)
                                                (cl_output cl)))
                        "w" "ESRI Shapefile" schema (effective_crs cl) ]
                      ++ (map FionaWrite (successes env fs1 pre)
                            ++ Print (warning bad e)
                            :: map FionaWrite (successes env fs1 post))
                      ++ [ FionaClose;
                           Print (newline
                                    ++ "Success! Bounding box shapefile created: "
                                    ++ str (shapefile_path_of (cl_input_folder cl)
                                                              (cl_output cl)));
                           Print ("Coordinate Reference System: "
                                    ++ effective_crs cl) ]))).
  { subst r K. unfold run. rewrite main_eq, process_point_clouds_eq.
    cbv zeta. rewrite Hmk, Hex.
    destruct (discover (flavour env) fs1 (cl_input_folder cl)) as [|p rest] eqn:D;
      [destruct pre; discriminate|].
    rewrite Hopen. cbn [fs log app]. rewrite Hd in *. rewrite Hloop.
    rewrite <- Hd. cbn [List.length].
    repeat (rewrite <- ?app_assoc; cbn [app]). reflexivity. }
  rewrite Hrun. unfold exit_status, run_log. cbn [fst snd log].
  match goal with
  | |- context [features_written ?l] =>
      assert (Hfeat : features_written l = successes env fs1 (pre ++ post))
  end.
  { repeat (rewrite features_written_app || rewrite features_written_cons
            || rewrite features_written_map_write).
    cbn [features_written flat_map app].
    now rewrite app_nil_r, successes_app. }
  split; [reflexivity|]. split; [|split; [exact Hfeat|split; [|split]]].
  - rewrite Hfeat, successes_all_ok_length by assumption.
    subst K. rewrite !length_app. cbn [List.length]. lia.
  - rewrite Hfeat. now apply successes_all_ok_names.
  - repeat (rewrite printed_app || rewrite printed_cons
            || rewrite printed_map_write).
    unfold warning. reflexivity.
  - eexists. eexists. unfold warning. reflexivity.
Qed.

Lemma discover_nonempty_run (env : Env) (cl : CommandLine) (fs0 fs1 : FileSystem) :
  mkdir_exist_ok fs0 (output_path_of (cl_input_folder cl) (cl_output cl))
  = inr fs1 ->
  discover (flavour env) fs1 (cl_input_folder cl) <> [] ->
  datasets_opened (run_log (run env cl fs0))
  = [ (str (shapefile_path_of (cl_input_folder cl) (cl_output cl)),
       effective_crs cl) ].
Proof.
  intros Hmk Hd. unfold run, run_log.
  rewrite main_eq, process_point_clouds_eq. cbv zeta. rewrite Hmk.
  rewrite (discover_nonempty_exists _ _ _ Hd).
  destruct (discover (flavour env) fs1 (cl_input_folder cl)) as [|p rest];
    [congruence|].
  destruct (fiona_open_error env _ (effective_crs cl)); cbn [snd log fs];
    repeat (rewrite datasets_opened_app || rewrite datasets_opened_cons
            || rewrite datasets_opened_loop);
    reflexivity.
Qed.

Lemma datasets_opened_run (env : Env) (cl : CommandLine) (fs0 : FileSystem) :
  datasets_opened (run_log (run env cl fs0)) = []
  \/ datasets_opened (run_log (run env cl fs0))
     = [ (str (shapefile_path_of (cl_input_folder cl) (cl_output cl)),
          effective_crs cl) ].
Proof.
  destruct (mkdir_exist_ok fs0
              (output_path_of (cl_input_folder cl) (cl_output cl)))
    as [e|fs1] eqn:Hmk.
  - left. unfold run, run_log. rewrite main_eq, process_point_clouds_eq.
    cbv zeta. rewrite Hmk. reflexivity.
  - destruct (discover (flavour env) fs1 (cl_input_folder cl)) eqn:Hd.
    + left. unfold run, run_log. rewrite main_eq, process_point_clouds_eq.
      cbv zeta. rewrite Hmk, Hd.
      destruct (path_exists fs1 (cl_input_folder cl)); reflexivity.
    + right. apply (discover_nonempty_run env cl fs0 fs1 Hmk). congruence.
Qed.

(** C7: the CRS handed to the dataset writer is the [--crs] argument as
    typed when there is one, and EPSG:4326 when there is none; a run that
    reaches the writer opens exactly one dataset, with that CRS. *)
Theorem writer_receives_crs (env : Env) (cl : CommandLine) (fs0 fs1 : FileSystem) :
  mkdir_exist_ok fs0 (output_path_of (cl_input_folder cl) (cl_output cl))
  = inr fs1 ->
  discover (flavour env) fs1 (cl_input_folder cl) <> [] ->
  datasets_opened (run_log (run env cl fs0))
  = [ (str (shapefile_path_of (cl_input_folder cl) (cl_output cl)),
       match cl_crs cl with
       | Some c => c
       | None => "EPSG:4326"
       end) ]
  /\ (forall (tree : FileSystem) (path c : string),
         In (path, c) (datasets_opened (run_log (run env cl tree))) ->
         c = match cl_crs cl with
             | Some c' => c'
             | None => "EPSG:4326"
             end).
Proof.
  intros Hmk Hd. split.
  - exact (discover_nonempty_run env cl fs0 fs1 Hmk Hd).
  - intros tree path c H.
    destruct (datasets_opened_run env cl tree) as [E|E]; rewrite E in H.
    + destruct H.
    + destruct H as [H|[]]. injection H as _ <-. reflexivity.
Qed.

(** C8: when the output directory can be made, discovery finds a file and
    the writer opens, [process_point_clouds] opens the dataset at
    <output_folder>/PointCloud_laz_BBOX_<input basename>.shp, the output
    folder being <input>/PointCloud_laz_BBOX when none is given, and returns
    that path, whichever files the loop skips. *)
Theorem process_point_clouds_returns_shapefile_path (env : Env)
        (input_folder : Path) (output_folder : option Path) (crs : string)
        (fs0 fs1 : FileSystem) (lg : list Event) :
  mkdir_exist_ok fs0 (output_path_of input_folder output_folder) = inr fs1 ->
  discover (flavour env) fs1 input_folder <> [] ->
  fiona_open_error env (str (shapefile_path_of input_folder output_folder)) crs
  = None ->
  let out :=
    match output_folder with
    | Some o => o
    | None => truediv input_folder "PointCloud_laz_BBOX"
    end in
  let shp :=
    truediv out ("PointCloud_laz_BBOX_" ++ name input_folder ++ ".shp") in
  (exists w',
      process_point_clouds env input_folder output_folder crs (mkWorld fs0 lg)
      = (inr (str shp), w')
      /\ datasets_opened (log w') = datasets_opened lg ++ [(str shp, crs)]
      /\ lookup (fs w') shp = Some shapefile_node
      /\ features_written (log w')
         = features_written lg
             ++ successes env fs1 (discover (flavour env) fs1 input_folder))
  /\ (out <> [] ->
      str shp
      = (str out ++ "/" ++ "PointCloud_laz_BBOX_" ++ name input_folder ++ ".shp")
          %string)
  /\ (forall (tree : FileSystem) (s : string) (w' : World),
         process_point_clouds env input_folder output_folder crs
                              (mkWorld tree lg) = (inr s, w') ->
         s = str shp).
Proof.
  intros Hmk Hd Hopen out shp.
  assert (Eshp : shapefile_path_of input_folder output_folder = shp).
  { unfold shapefile_path_of, output_path_of. subst shp out.
    destruct output_folder; reflexivity. }
  split; [|split].
  - rewrite process_point_clouds_eq. cbv zeta. rewrite Hmk.
    rewrite (discover_nonempty_exists _ _ _ Hd).
    destruct (discover (flavour env) fs1 input_folder) as [|p rest] eqn:D;
      [congruence|].
    rewrite Hopen, Eshp. eexists. split; [reflexivity|]. cbn [fs log].
    split; [|split].
    + repeat (rewrite datasets_opened_app || rewrite datasets_opened_cons
              || rewrite datasets_opened_loop).
      reflexivity.
    + apply lookup_store_same, truediv_not_nil.
    + rewrite <- Eshp, <- D.
      rewrite loop_events_discovered by reflexivity.
      repeat (rewrite features_written_app || rewrite features_written_cons
              || rewrite features_written_loop).
      cbn [features_written flat_map]. now rewrite app_nil_r.
  - intros Hout. now apply str_truediv.
  - clear Hmk Hd Hopen. intros tree s w' H.
    rewrite process_point_clouds_eq in H. cbv zeta in H. rewrite Eshp in H.
    destruct (mkdir_exist_ok tree _); [discriminate|].
    destruct (path_exists _ _); [|discriminate].
    destruct (discover _ _ _); [discriminate|].
    destruct (fiona_open_error env _ _); [discriminate|].
    now injection H as <- _.
Qed.

(** ** Setup failures *)

Lemma walk_reached_lookup (tree : FileSystem) (rest : list string)
      (base : Path) (o : option Node) :
  walk tree base rest = Reached o -> o = lookup tree (base ++ rest).
Proof.
  revert base. induction rest as [|c rest IH]; intros base; simpl.
  - intros E. injection E as <-. now rewrite app_nil_r.
  - destruct (lookup tree base) as [[|f]|]; try discriminate.
    intros E. rewrite (IH _ E), <- app_assoc. reflexivity.
Qed.

(** One more component after a walk. *)
Lemma walk_snoc (tree : FileSystem) (rest : list string) (base : Path)
      (c : string) :
  walk tree base (rest ++ [c])
  = match walk tree base rest with
    | Reached (Some Dir) => Reached (lookup tree (base ++ rest ++ [c]))
    | Reached (Some (File _)) => NotADirectory
    | Reached None => NoSuchEntry
    | blocked => blocked
    end.
Proof.
  revert base. induction rest as [|d rest IH]; intros base; simpl.
  - destruct (lookup tree base) as [[|f]|]; reflexivity.
  - destruct (lookup tree base) as [[|f]|]; try reflexivity.
    rewrite IH, <- app_assoc. reflexivity.
Qed.

Lemma path_snoc (p : Path) : p <> [] -> p = parent p ++ [name p].
Proof. intros H. now apply app_removelast_last. Qed.

Lemma walk_reached_parent (tree : FileSystem) (p : Path) (o : option Node) :
  walk tree [] p = Reached o -> p <> [] -> lookup tree (parent p) = Some Dir.
Proof.
  intros W Hn. rewrite (path_snoc p Hn), walk_snoc in W.
  destruct (walk tree [] (parent p)) as [| |[[|f]|]] eqn:V; try discriminate.
  now rewrite (walk_reached_lookup _ _ _ _ V).
Qed.

(** Two trees that agree on the components before the last are walked
    alike. *)
Lemma walk_agree (t1 t2 : FileSystem) (rest : list string) (base : Path)
      (o : option Node) :
  (forall k, k < List.length rest ->
             lookup t2 (base ++ firstn k rest) = lookup t1 (base ++ firstn k rest)) ->
  walk t1 base rest = Reached o ->
  walk t2 base rest = Reached (lookup t2 (base ++ rest)).
Proof.
  revert base. induction rest as [|c rest IH]; intros base A; simpl.
  - intros _. now rewrite app_nil_r.
  - pose proof (A 0 (Nat.lt_0_succ _)) as A0. simpl in A0.
    rewrite app_nil_r in A0. rewrite A0.
    destruct (lookup t1 base) as [[|f]|]; try discriminate.
    intros W.
    assert (A' : forall k, k < List.length rest ->
                           lookup t2 ((base ++ [c]) ++ firstn k rest)
                           = lookup t1 ((base ++ [c]) ++ firstn k rest)).
    { intros k Hk. rewrite <- !app_assoc. apply (A (S k)). simpl. lia. }
    rewrite (IH _ A' W). now rewrite <- app_assoc.
Qed.

(** In a well-formed tree everything above an entry is a directory. *)
Lemma well_formed_parent (tree : FileSystem) (p : Path) (n : Node) :
  well_formed tree = true -> p <> [] -> lookup tree p = Some n ->
  lookup tree (parent p) = Some Dir.
Proof.
  intros W Hn L. unfold well_formed in W. rewrite forallb_forall in W.
  unfold lookup in L. destruct p as [|x p]; [congruence|].
  assert (I : exists m, In (x :: p, m) tree).
  { clear W Hn. induction tree as [|[q m] tree IH]; simpl in L; [discriminate|].
    destruct (path_eqb q (x :: p)) eqn:E.
    - apply path_eqb_eq in E. subst q. exists m. now left.
    - destruct (IH L) as [m' I]. exists m'. now right. }
  destruct I as [m I]. specialize (W _ I). cbn [fst] in W.
  destruct (lookup tree (parent (x :: p))) as [[|f]|]; congruence.
Qed.

Lemma well_formed_walk (tree : FileSystem) (p : Path) (n : Node) :
  well_formed tree = true -> lookup tree p = Some n ->
  walk tree [] p = Reached (Some n).
Proof.
  intros W. revert n. induction p as [|c p IH] using rev_ind; intros n L.
  - simpl. simpl in L. now rewrite L.
  - assert (Hn : p ++ [c] <> []) by (destruct p; discriminate).
    pose proof (well_formed_parent _ _ _ W Hn L) as P.
    unfold parent in P. rewrite removelast_last in P.
    rewrite walk_snoc, (IH _ P). change ([] ++ p ++ [c]) with (p ++ [c]).
    now rewrite L.
Qed.

Lemma mkdir_exist_ok_inr (tree fs1 : FileSystem) (p : Path) :
  mkdir_exist_ok tree p = inr fs1 ->
  (fs1 = tree /\ lookup tree p = Some Dir)
  \/ (fs1 = tree ++ [(p, Dir)] /\ lookup tree p = None
      /\ lookup tree (parent p) = Some Dir).
Proof.
  unfold mkdir_exist_ok.
  destruct (walk tree [] p) as [| |[[|f]|]] eqn:W; try discriminate;
    intros E; injection E as <-;
    pose proof (walk_reached_lookup _ _ _ _ W) as L; cbn [app] in L.
  - left. split; [reflexivity|now symmetry].
  - right. split; [reflexivity|]. split; [now symmetry|].
    apply (walk_reached_parent _ _ _ W). intros ->. discriminate.
Qed.




Lemma scandir_app (t1 t2 : FileSystem) (folder : Path) :
  scandir (t1 ++ t2) folder = scandir t1 folder ++ scandir t2 folder.
Proof. unfold scandir. now rewrite filter_app, map_app. Qed.

Lemma filter_none {A : Type} (f : A -> bool) (l : list A) :
  (forall x, In x l -> f x = false) -> filter f l = [].
Proof.
  induction l as [|x l IH]; [reflexivity|]. intros H. simpl.
  rewrite (H x (or_introl eq_refl)). apply IH. intros y I. apply H. now right.
Qed.


Lemma discover_no_entries (fl : Flavour) (tree : FileSystem) (folder : Path) :
  count (has_las_extension fl) (scandir tree folder) = 0 ->
  discover fl tree folder = [].
Proof.
  intros H. unfold count in H. apply length_zero_iff_nil in H.
  assert (Z : forall entry, In entry (scandir tree folder) ->
                            has_las_extension fl entry = false).
  { intros entry I. apply not_true_is_false. intros T.
    assert (J : In entry (filter (has_las_extension fl) (scandir tree folder)))
      by (apply filter_In; tauto).
    rewrite H in J. destruct J. }
  assert (F : forall pat,
             (forall entry, fnmatch fl entry pat = true ->
                            has_las_extension fl entry = true) ->
             glob fl tree folder pat = []).
  { intros pat P. unfold glob. destruct (lookup tree folder) as [[|c]|];
      try reflexivity.
    rewrite filter_none; [reflexivity|].
    intros entry I. apply not_true_is_false. intros M.
    specialize (P entry M). rewrite (Z entry I) in P. discriminate. }
  unfold discover. rewrite !F; [reflexivity| |];
    intros entry M; rewrite has_las_extension_fnmatch, M;
    [apply orb_true_r|reflexivity].
Qed.

(** Exit status and log of a run that stops before the writer. *)
Lemma run_mkdir_fails (env : Env) (cl : CommandLine) (fs0 : FileSystem)
      (e : Exception) :
  mkdir_exist_ok fs0 (output_path_of (cl_input_folder cl) (cl_output cl))
  = inl e ->
  run env cl fs0 = (1%Z, mkWorld fs0 [Print ("Error: " ++ exc_str e)]).
Proof.
  intros H. unfold run. rewrite main_eq, process_point_clouds_eq. cbv zeta.
  now rewrite H.
Qed.

Lemma run_folder_not_found (env : Env) (cl : CommandLine) (fs0 fs1 : FileSystem) :
  mkdir_exist_ok fs0 (output_path_of (cl_input_folder cl) (cl_output cl))
  = inr fs1 ->
  lookup fs1 (cl_input_folder cl) = None ->
  run env cl fs0
  = (1%Z,
     mkWorld fs1 [Print ("Error: " ++ "Folder not found: "
                                   ++ str (cl_input_folder cl))]).
Proof.
  intros H N. unfold run. rewrite main_eq, process_point_clouds_eq. cbv zeta.
  rewrite H. unfold path_exists. now rewrite N.
Qed.

Lemma run_no_files (env : Env) (cl : CommandLine) (fs0 fs1 : FileSystem) :
  mkdir_exist_ok fs0 (output_path_of (cl_input_folder cl) (cl_output cl))
  = inr fs1 ->
  path_exists fs1 (cl_input_folder cl) = true ->
  discover (flavour env) fs1 (cl_input_folder cl) = [] ->
  run env cl fs0
  = (1%Z,
     mkWorld fs1 [Print ("Error: " ++ "No .las or .laz files found in "
                                   ++ str (cl_input_folder cl))]).
Proof.
  intros H E D. unfold run. rewrite main_eq, process_point_clouds_eq. cbv zeta.
  now rewrite H, E, D.
Qed.







Lemma lookup_app_file (tree : FileSystem) (p q : Path) (n : string + Header) :
  lookup (tree ++ [(p, Dir)]) q = Some (File n) -> lookup tree q = Some (File n).
Proof.
  unfold lookup. destruct q; [discriminate|].
  destruct (assoc tree (s :: q)) eqn:A.
  - now rewrite (assoc_app_found _ _ _ _ A).
  - rewrite assoc_app_missing by assumption. simpl.
    destruct (path_eqb p (s :: q)); discriminate.
Qed.

(** What C5 asks for holds when no direct entry of the input folder, file
    or subfolder, has a matching name and the output directory is not
    itself such an entry. *)
Lemma no_matching_files_exit_1 (env : Env) (cl : CommandLine) (fs0 : FileSystem) :
  count (has_las_extension (flavour env)) (scandir fs0 (cl_input_folder cl)) = 0 ->
  (is_child_of (cl_input_folder cl)
               (output_path_of (cl_input_folder cl) (cl_output cl))
   && has_las_extension (flavour env)
        (name (output_path_of (cl_input_folder cl) (cl_output cl))))%bool = false ->
  let r := run env cl fs0 in
  exit_status r = 1%Z
  /\ datasets_opened (run_log r) = []
  /\ (forall p n, lookup (final_fs r) p = Some (File n) ->
                  lookup fs0 p = Some (File n)).
Proof.
  intros Hc Ho r.
  destruct (mkdir_exist_ok fs0 (output_path_of (cl_input_folder cl) (cl_output cl)))
    as [e|fs1] eqn:Hmk.
  - subst r. rewrite (run_mkdir_fails env cl fs0 e Hmk).
    repeat split. intros p n L. exact L.
  - assert (D : discover (flavour env) fs1 (cl_input_folder cl) = []).
    { apply discover_no_entries.
      destruct (mkdir_exist_ok_inr _ _ _ Hmk) as [[-> _]|[-> _]]; [exact Hc|].
      rewrite scandir_app. unfold count in *. rewrite filter_app, length_app, Hc.
      unfold scandir. cbn [filter fst].
      destruct (is_child_of (cl_input_folder cl)
                  (output_path_of (cl_input_folder cl) (cl_output cl)));
        [|reflexivity].
      cbn [map filter fst andb] in *. now rewrite Ho. }
    assert (F : forall p n, lookup fs1 p = Some (File n) ->
                            lookup fs0 p = Some (File n)).
    { destruct (mkdir_exist_ok_inr _ _ _ Hmk) as [[-> _]|[-> _]];
        [tauto|]. intros p n. apply lookup_app_file. }
    destruct (path_exists fs1 (cl_input_folder cl)) eqn:E.
    + subst r. rewrite (run_no_files env cl fs0 fs1 Hmk E D). repeat split.
      exact F.
    + subst r. rewrite (run_folder_not_found env cl fs0 fs1 Hmk).
      * repeat split. exact F.
      * unfold path_exists in E.
        destruct (lookup fs1 (cl_input_folder cl)); [discriminate|reflexivity].
Qed.

(** C5 at the failing input: the input folder is empty, the output folder
    is asked for inside it under a name ending in .las; the run makes that
    folder, discovers it as a point-cloud file, opens the dataset, skips the
    folder with a warning and exits with status 0. *)
Theorem output_folder_discovered_as_input_file (fl : Flavour) :
  path_exists empty_tree ["survey"] = true
  /\ count has_las_extension_any_case (scandir empty_tree ["survey"]) = 0
  /\ exit_status (run (willing_writer fl) nested_output_command empty_tree) = 0%Z
  /\ datasets_opened
       (run_log (run (willing_writer fl) nested_output_command empty_tree))
     = [ ("survey/tiles.las/PointCloud_laz_BBOX_survey.shp", "EPSG:4326") ]
  /\ features_written
       (run_log (run (willing_writer fl) nested_output_command empty_tree))
     = []
  /\ printed
       (run_log (run (willing_writer fl) nested_output_command empty_tree))
     = [ "Found 1 point cloud files";
         "Output shapefile: survey/tiles.las/PointCloud_laz_BBOX_survey.shp";
         "Warning: Could not process tiles.las: [Errno 21] Is a directory: 'survey/tiles.las'";
         newline ++ "Success! Bounding box shapefile created: survey/tiles.las/PointCloud_laz_BBOX_survey.shp";
         "Coordinate Reference System: EPSG:4326" ]%string
  /\ lookup
       (final_fs (run (willing_writer fl) nested_output_command empty_tree))
       ["survey"; "tiles.las"; "PointCloud_laz_BBOX_survey.shp"]
     = Some shapefile_node.
Proof. destruct fl; repeat split; reflexivity. Qed.

Lemma one_unreadable_file_is_skipped_witness :
  exit_status (run (willing_writer Posix) survey_command survey_tree) = 0%Z
  /\ map prop_filename
         (features_written
            (run_log (run (willing_writer Posix) survey_command survey_tree)))
     = [ "north.las"; "south.laz" ]
  /\ In "Warning: Could not process broken.las: Invalid file signature"
        (printed (run_log (run (willing_writer Posix) survey_command survey_tree))).
Proof.
  assert (Hok : Forall (fun p => exists f,
                            outcome (willing_writer Posix) survey_after_mkdir p
                            = inr f)
                       ([ ["survey"; "north.las"] ] ++ [ ["survey"; "south.laz"] ])).
  { repeat constructor; eexists; reflexivity. }
  destruct (one_unreadable_file_is_skipped
              (willing_writer Posix) survey_command survey_tree
              survey_after_mkdir
              [ ["survey"; "north.las"] ] [ ["survey"; "south.laz"] ]
              ["survey"; "broken.las"]
              (mkExc LibraryError "Invalid file signature")
              eq_refl eq_refl eq_refl eq_refl Hok)
    as [H1 [_ [_ [H4 [H5 _]]]]].
  split; [exact H1|]. split; [exact H4|].
  rewrite H5. right. right. left. reflexivity.
Defined.

Lemma writer_receives_crs_witness :
  datasets_opened
    (run_log (run (willing_writer Posix)
                  (mkCommandLine ["survey"] None (Some "EPSG:2100")) survey_tree))
  = [ ("survey/PointCloud_laz_BBOX/PointCloud_laz_BBOX_survey.shp", "EPSG:2100") ]
  /\ datasets_opened
       (run_log (run (willing_writer Posix) survey_command survey_tree))
     = [ ("survey/PointCloud_laz_BBOX/PointCloud_laz_BBOX_survey.shp", "EPSG:4326") ].
Proof.
  split.
  - refine (proj1 (writer_receives_crs (willing_writer Posix)
                     (mkCommandLine ["survey"] None (Some "EPSG:2100"))
                     survey_tree survey_after_mkdir eq_refl _)).
    discriminate.
  - refine (proj1 (writer_receives_crs (willing_writer Posix) survey_command
                     survey_tree survey_after_mkdir eq_refl _)).
    discriminate.
Defined.

Lemma process_point_clouds_returns_shapefile_path_witness :
  exists w',
    process_point_clouds (willing_writer Posix) ["survey"] None "EPSG:4326"
                         (mkWorld survey_tree [])
    = (inr "survey/PointCloud_laz_BBOX/PointCloud_laz_BBOX_survey.shp", w')
    /\ lookup (fs w')
              ["survey"; "PointCloud_laz_BBOX"; "PointCloud_laz_BBOX_survey.shp"]
       = Some shapefile_node
    /\ List.length (features_written (log w')) = 2.
Proof.
  destruct (process_point_clouds_returns_shapefile_path
              (willing_writer Posix) ["survey"] None "EPSG:4326"
              survey_tree survey_after_mkdir [] eq_refl)
    as [[w' [E [_ [L F]]]] _]; [discriminate|reflexivity|].
  exists w'. split; [exact E|]. split; [exact L|]. now rewrite F.
Defined.

(** ** Degenerate and inverted extents *)

Lemma SFeqb_sym (a b : spec_float) : SFeqb a b = SFeqb b a.
Proof.
  unfold SFeqb, SFcompare.
  destruct a as [[]|[]| |[] m e], b as [[]|[]| |[] m' e']; try reflexivity;
    rewrite (Z.compare_antisym e e'); destruct (e ?= e')%Z; simpl;
    try reflexivity;
    change (PosDef.Pos.compare_cont Eq m' m) with (m' ?= m)%positive;
    change (PosDef.Pos.compare_cont Eq m m') with (m ?= m')%positive;
    rewrite (Pos.compare_antisym m m'); destruct (m ?= m')%positive;
    reflexivity.
Qed.

Lemma SFeqb_refl_left (a b : spec_float) : SFeqb a b = true -> SFeqb a a = true.
Proof.
  unfold SFeqb, SFcompare.
  destruct a as [[]|[]| |[] m e]; try reflexivity.
  - destruct b as [[]|[]| |[] m' e']; discriminate.
  - intros _. rewrite Z.compare_refl.
    change (PosDef.Pos.compare_cont Eq m m) with (m ?= m)%positive.
    now rewrite Pos.compare_refl.
  - intros _. rewrite Z.compare_refl.
    change (PosDef.Pos.compare_cont Eq m m) with (m ?= m)%positive.
    now rewrite Pos.compare_refl.
Qed.

Lemma float_eqb_sym (a b : float) : PrimFloat.eqb a b = PrimFloat.eqb b a.
Proof. rewrite !eqb_spec. apply SFeqb_sym. Qed.

Lemma float_eqb_refl_left (a b : float) :
  PrimFloat.eqb a b = true -> PrimFloat.eqb a a = true.
Proof. rewrite !eqb_spec. apply SFeqb_refl_left. Qed.

(** C6: for a header whose extents compare equal in both directions the
    extractor returns, without failing, a closed ring of five vertices each
    equal to (x_min, y_min): the rectangle has collapsed to a point. *)
Theorem degenerate_extent_ring (h : Header) :
  PrimFloat.eqb (x_min h) (x_max h) = true ->
  PrimFloat.eqb (y_min h) (y_max h) = true ->
  let ring := create_bounding_box_points h in
  List.length ring = 5
  /\ hd_error ring = Some (last ring (x_max h, y_max h))
  /\ Forall (fun v => vertex_eqb v (x_min h, y_min h) = true) ring
  /\ (x_min h = x_max h -> y_min h = y_max h ->
      ring = repeat (x_min h, y_min h) 5).
Proof.
  intros Hx Hy ring.
  pose proof (float_eqb_refl_left _ _ Hx) as Rx.
  pose proof (float_eqb_refl_left _ _ Hy) as Ry.
  rewrite float_eqb_sym in Hx. rewrite float_eqb_sym in Hy.
  split; [reflexivity|]. split; [reflexivity|]. split.
  - subst ring. unfold create_bounding_box_points, vertex_eqb.
    repeat constructor; cbn [fst snd]; rewrite ?Rx, ?Ry, ?Hx, ?Hy; reflexivity.
  - intros Ex Ey. subst ring. unfold create_bounding_box_points.
    rewrite <- Ex, <- Ey. reflexivity.
Qed.

Lemma degenerate_extent_ring_witness :
  Forall (fun v => vertex_eqb v (-0, 7)%float = true)
         (create_bounding_box_points (mkHeader (-0) 0 7 7 1))
  /\ create_bounding_box_points (mkHeader 3 3 7 7 1)
     = repeat (3, 7)%float 5.
Proof.
  split.
  - refine (proj1 (proj2 (proj2 (degenerate_extent_ring
                                   (mkHeader (-0) 0 7 7 1) eq_refl eq_refl)))).
  - refine (proj2 (proj2 (proj2 (degenerate_extent_ring
                                   (mkHeader 3 3 7 7 1) eq_refl eq_refl)))
                  eq_refl eq_refl).
Defined.

(** C9: [create_bounding_box_points] is defined on every header, whatever
    the order of its extents: it checks nothing and always returns five
    vertices, the first equal to the last; inverted extents are traced as
    they are given. *)
Theorem create_bounding_box_points_total :
  (forall h : Header,
      exists a b c d,
        create_bounding_box_points h = [a; b; c; d; a]
        /\ List.length (create_bounding_box_points h) = 5
        /\ hd_error (create_bounding_box_points h)
           = Some (last (create_bounding_box_points h) b))
  /\ (forall n : Z,
         create_bounding_box_points (mkHeader 10 0 5 0 n)
         = [ (10, 5); (10, 0); (0, 0); (0, 5); (10, 5) ])%float.
Proof.
  split.
  - intros h. do 4 eexists. repeat split.
  - intros n. reflexivity.
Qed.

(** ** The run, case by case *)

Lemma run_open_fails (env : Env) (cl : CommandLine) (fs0 fs1 : FileSystem)
      (msg : string) :
  mkdir_exist_ok fs0 (output_path_of (cl_input_folder cl) (cl_output cl))
  = inr fs1 ->
  discover (flavour env) fs1 (cl_input_folder cl) <> [] ->
  fiona_open_error env
    (str (shapefile_path_of (cl_input_folder cl) (cl_output cl)))
    (effective_crs cl) = Some msg ->
  run env cl fs0
  = (1%Z,
     mkWorld fs1
             (opening_events cl
                (List.length (discover (flavour env) fs1 (cl_input_folder cl)))
                ++ [Print ("Error: " ++ msg)])).
Proof.
  intros Hmk Hd Ho. unfold run. rewrite main_eq, process_point_clouds_eq.
  cbv zeta. rewrite Hmk, (discover_nonempty_exists _ _ _ Hd).
  destruct (discover (flavour env) fs1 (cl_input_folder cl)) as [|p rest];
    [congruence|].
  rewrite Ho. reflexivity.
Qed.

Lemma run_success (env : Env) (cl : CommandLine) (fs0 fs1 : FileSystem) :
  mkdir_exist_ok fs0 (output_path_of (cl_input_folder cl) (cl_output cl))
  = inr fs1 ->
  discover (flavour env) fs1 (cl_input_folder cl) <> [] ->
  fiona_open_error env
    (str (shapefile_path_of (cl_input_folder cl) (cl_output cl)))
    (effective_crs cl) = None ->
  run env cl fs0
  = (0%Z,
     mkWorld
       (store fs1 (shapefile_path_of (cl_input_folder cl) (cl_output cl))
              shapefile_node)
       (opening_events cl
          (List.length (discover (flavour env) fs1 (cl_input_folder cl)))
          ++ loop_events env fs1 (discover (flavour env) fs1 (cl_input_folder cl))
          ++ closing_events cl)).
Proof.
  intros Hmk Hd Ho. unfold run. rewrite main_eq, process_point_clouds_eq.
  cbv zeta. rewrite Hmk, (discover_nonempty_exists _ _ _ Hd).
  pose proof (loop_events_discovered env fs1 (cl_input_folder cl) (cl_output cl)
                _ eq_refl) as L.
  destruct (discover (flavour env) fs1 (cl_input_folder cl)) as [|p rest];
    [congruence|].
  rewrite Ho, L. cbn [fs log]. unfold opening_events, closing_events.
  cbn [List.length]. repeat (rewrite <- ?app_assoc; cbn [app]). reflexivity.
Qed.

Lemma run_cases (env : Env) (cl : CommandLine) (fs0 : FileSystem) :
  RunCase env cl fs0.
Proof.
  destruct (mkdir_exist_ok fs0 (output_path_of (cl_input_folder cl) (cl_output cl)))
    as [e|fs1] eqn:Hmk.
  - eapply MkdirFails; [exact Hmk|now apply run_mkdir_fails].
  - destruct (discover (flavour env) fs1 (cl_input_folder cl)) as [|p rest] eqn:Hd.
    + destruct (lookup fs1 (cl_input_folder cl)) eqn:L.
      * eapply NoFiles; eauto.
        -- unfold path_exists. now rewrite L.
        -- apply (run_no_files env cl fs0 fs1 Hmk); [|assumption].
           unfold path_exists. now rewrite L.
      * eapply FolderNotFound; eauto. now apply run_folder_not_found.
    + assert (Hne : discover (flavour env) fs1 (cl_input_folder cl) <> [])
        by (rewrite Hd; discriminate).
      destruct (fiona_open_error env
                  (str (shapefile_path_of (cl_input_folder cl) (cl_output cl)))
                  (effective_crs cl)) as [msg|] eqn:Ho.
      * eapply OpenFails; eauto. now apply run_open_fails.
      * eapply Success; eauto. now apply run_success.
Qed.

(** ** Logs of the loop *)

Lemma printed_loop (env : Env) (tree : FileSystem) (files : list Path) :
  printed (loop_events env tree files) = failures env tree files.
Proof.
  unfold loop_events, failures.
  induction files as [|p files IH]; [reflexivity|].
  cbn [map flat_map]. rewrite printed_cons, IH.
  destruct (outcome env tree p); reflexivity.
Qed.

Lemma successes_failures_length (env : Env) (tree : FileSystem)
      (files : list Path) :
  List.length (successes env tree files) + List.length (failures env tree files)
  = List.length files.
Proof.
  unfold successes, failures.
  induction files as [|p files IH]; [reflexivity|].
  cbn [flat_map]. rewrite !length_app.
  destruct (outcome env tree p); cbn [List.length]; lia.
Qed.

Lemma in_successes (env : Env) (tree : FileSystem) (files : list Path)
      (f : Feature) :
  In f (successes env tree files) ->
  exists p header,
    In p files /\ laspy_open tree p = inr header
    /\ fiona_write_error env (make_feature p header) = None
    /\ f = make_feature p header.
Proof.
  unfold successes. rewrite in_flat_map. intros [p [I H]].
  unfold outcome in H. destruct (laspy_open tree p) as [e|header] eqn:L;
    [destruct H|].
  destruct (fiona_write_error env (make_feature p header)) eqn:W;
    [destruct H|].
  destruct H as [<-|[]]. now exists p, header.
Qed.

Lemma writer_calls_app (l1 l2 : list Event) :
  writer_calls (l1 ++ l2) = writer_calls l1 ++ writer_calls l2.
Proof. apply filter_app. Qed.

Lemma writer_calls_loop (env : Env) (tree : FileSystem) (files : list Path) :
  writer_calls (loop_events env tree files)
  = map FionaWrite (successes env tree files).
Proof.
  unfold writer_calls, loop_events, successes.
  induction files as [|p files IH]; [reflexivity|].
  cbn [map flat_map filter]. destruct (outcome env tree p); cbn [app map];
    now rewrite IH.
Qed.

(** ** The directory tree under [mkdir] and [store] *)

Lemma truediv_neq (p : Path) (c : string) : truediv p c <> p.
Proof.
  unfold truediv. intros E. apply (f_equal (@List.length string)) in E.
  rewrite length_app in E. simpl in E. lia.
Qed.

Lemma lookup_app_found (tree extra : FileSystem) (p : Path) (n : Node) :
  lookup tree p = Some n -> lookup (tree ++ extra) p = Some n.
Proof.
  unfold lookup. destruct p; [tauto|]. apply assoc_app_found.
Qed.

Lemma lookup_snoc (tree : FileSystem) (p q : Path) (n m : Node) :
  lookup (tree ++ [(p, n)]) q = Some m ->
  lookup tree q = Some m \/ (q = p /\ m = n /\ lookup tree q = None).
Proof.
  unfold lookup. destruct q as [|x q]; [tauto|].
  destruct (assoc tree (x :: q)) eqn:A.
  - rewrite (assoc_app_found _ _ _ _ A). tauto.
  - rewrite assoc_app_missing by assumption. simpl.
    destruct (path_eqb p (x :: q)) eqn:E; [|discriminate].
    apply path_eqb_eq in E. intros H. injection H as <-. right. now subst.
Qed.

Lemma mkdir_keeps (tree fs1 : FileSystem) (p q : Path) (n : Node) :
  mkdir_exist_ok tree p = inr fs1 ->
  lookup tree q = Some n -> lookup fs1 q = Some n.
Proof.
  intros H L. destruct (mkdir_exist_ok_inr _ _ _ H) as [[-> _]|[-> _]];
    [assumption|now apply lookup_app_found].
Qed.

Lemma mkdir_adds (tree fs1 : FileSystem) (p q : Path) (n : Node) :
  mkdir_exist_ok tree p = inr fs1 ->
  lookup fs1 q = Some n ->
  lookup tree q = Some n \/ (q = p /\ n = Dir /\ lookup tree q = None).
Proof.
  intros H L. destruct (mkdir_exist_ok_inr _ _ _ H) as [[-> _]|[-> _]];
    [tauto|now apply lookup_snoc].
Qed.

Lemma mkdir_makes_dir (tree fs1 : FileSystem) (p : Path) :
  mkdir_exist_ok tree p = inr fs1 -> lookup fs1 p = Some Dir.
Proof.
  intros H. destruct (mkdir_exist_ok_inr _ _ _ H) as [[-> D]|[-> [N _]]];
    [assumption|].
  unfold lookup in *. destruct p; [reflexivity|].
  rewrite assoc_app_missing by assumption. simpl. now rewrite path_eqb_refl.
Qed.

Lemma shapefile_path_not_nil (input_folder : Path) (output_folder : option Path) :
  shapefile_path_of input_folder output_folder <> [].
Proof. apply truediv_not_nil. Qed.

Lemma shapefile_path_not_output (input_folder : Path)
      (output_folder : option Path) :
  shapefile_path_of input_folder output_folder
  <> output_path_of input_folder output_folder.
Proof. apply truediv_neq. Qed.

(** ** Exit status *)

(** X1: for a command line that [argparse] has accepted, [main] ends with
    status 0 or 1, and with 0 exactly when the output directory could be
    made, discovery found at least one entry and the writer opened; then
    the dataset file and the output directory are there and the last line
    printed names the CRS; otherwise the last line printed is an error line
    and no record was written. *)
Theorem exit_status_characterised (env : Env) (cl : CommandLine)
        (fs0 : FileSystem) :
  let r := run env cl fs0 in
  let out := output_path_of (cl_input_folder cl) (cl_output cl) in
  let shp := shapefile_path_of (cl_input_folder cl) (cl_output cl) in
  (exit_status r = 0%Z \/ exit_status r = 1%Z)
  /\ (exit_status r = 0%Z
      <-> exists fs1,
          mkdir_exist_ok fs0 out = inr fs1
          /\ discover (flavour env) fs1 (cl_input_folder cl) <> []
          /\ fiona_open_error env (str shp) (effective_crs cl) = None)
  /\ (exit_status r = 0%Z ->
      lookup (final_fs r) shp = Some shapefile_node
      /\ lookup (final_fs r) out = Some Dir
      /\ last (printed (run_log r)) ""
         = ("Coordinate Reference System: " ++ effective_crs cl)%string)
  /\ (exit_status r = 1%Z ->
      features_written (run_log r) = []
      /\ exists msg,
          last (printed (run_log r)) "" = ("Error: " ++ msg)%string).
Proof.
  intros r out shp. subst r out shp.
  destruct (run_cases env cl fs0); rewrite Hrun;
    unfold exit_status, final_fs, run_log; cbn [fst snd fs log].
  - split; [tauto|]. split; [|split; [discriminate|]].
    + split; [discriminate|]. intros [fs1 [E _]]. congruence.
    + intros _. split; [reflexivity|]. now exists (exc_str e).
  - split; [tauto|]. split; [|split; [discriminate|]].
    + split; [discriminate|]. intros [fs' [E [D _]]].
      assert (fs' = fs1) by congruence. subst fs'.
      apply discover_nonempty_exists in D. unfold path_exists in D.
      rewrite Hin in D. discriminate.
    + intros _. split; [reflexivity|]. eexists. reflexivity.
  - split; [tauto|]. split; [|split; [discriminate|]].
    + split; [discriminate|]. intros [fs' [E [D _]]].
      assert (fs' = fs1) by congruence. subst fs'. congruence.
    + intros _. split; [reflexivity|]. eexists. reflexivity.
  - split; [tauto|]. split; [|split; [discriminate|]].
    + split; [discriminate|]. intros [fs' [E [_ O]]]. congruence.
    + intros _. split; [reflexivity|]. exists msg.
      rewrite printed_app. reflexivity.
  - split; [tauto|]. split; [|split; [|discriminate]].
    + split; [|reflexivity]. intros _. now exists fs1.
    + intros _. split; [|split].
      * apply lookup_store_same, shapefile_path_not_nil.
      * rewrite lookup_store_other by apply shapefile_path_not_output.
        now apply (mkdir_makes_dir fs0).
      * rewrite !printed_app, printed_loop.
        unfold closing_events. rewrite !printed_cons. cbn [printed flat_map].
        rewrite app_assoc. apply last_app_cons.
Qed.

Lemma exit_status_characterised_witness :
  lookup (final_fs (run (willing_writer Posix) survey_command survey_tree))
         ["survey"; "PointCloud_laz_BBOX"; "PointCloud_laz_BBOX_survey.shp"]
  = Some shapefile_node
  /\ features_written
       (run_log (run (refusing_writer "Invalid CRS") survey_command survey_tree))
     = [].
Proof.
  split.
  - refine (proj1 (proj1 (proj2 (proj2 (exit_status_characterised
                                          (willing_writer Posix) survey_command
                                          survey_tree))) eq_refl)).
  - refine (proj1 (proj2 (proj2 (proj2 (exit_status_characterised
                                          (refusing_writer "Invalid CRS")
                                          survey_command survey_tree)))
                         eq_refl)).
Defined.

(** ** Every file is accounted for *)

Lemma features_written_opening (cl : CommandLine) (found : nat) :
  features_written (opening_events cl found) = [].
Proof. reflexivity. Qed.

Lemma features_written_closing (cl : CommandLine) :
  features_written (closing_events cl) = [].
Proof. reflexivity. Qed.

(** X2: in a run that reaches the loop over K discovered entries, every
    entry gives either one record in the dataset or one warning on the
    output, in discovery order: the records and the warnings together are K,
    the line `Found K point cloud files' counts failing entries too, and
    the status is 0 however many entries fail, even all of them. *)
Theorem every_file_gives_a_record_or_a_warning (env : Env) (cl : CommandLine)
        (fs0 fs1 : FileSystem) :
  mkdir_exist_ok fs0 (output_path_of (cl_input_folder cl) (cl_output cl))
  = inr fs1 ->
  discover (flavour env) fs1 (cl_input_folder cl) <> [] ->
  fiona_open_error env
    (str (shapefile_path_of (cl_input_folder cl) (cl_output cl)))
    (effective_crs cl) = None ->
  let r := run env cl fs0 in
  let files := discover (flavour env) fs1 (cl_input_folder cl) in
  exit_status r = 0%Z
  /\ features_written (run_log r) = successes env fs1 files
  /\ printed (run_log r)
     = [ "Found " ++ string_of_nat (List.length files) ++ " point cloud files";
         "Output shapefile: "
           ++ str (shapefile_path_of (cl_input_folder cl) (cl_output cl)) ]%string
         ++ failures env fs1 files
         ++ [ newline ++ "Success! Bounding box shapefile created: "
                ++ str (shapefile_path_of (cl_input_folder cl) (cl_output cl));
              "Coordinate Reference System: " ++ effective_crs cl ]%string
  /\ List.length (features_written (run_log r))
     + List.length (failures env fs1 files)
     = List.length files
  /\ ((forall p, In p files -> exists e, outcome env fs1 p = inl e) ->
      features_written (run_log r) = []
      /\ List.length (failures env fs1 files) = List.length files).
Proof.
  intros Hmk Hd Ho r files. subst r.
  rewrite (run_success env cl fs0 fs1 Hmk Hd Ho).
  unfold exit_status, run_log. cbn [fst snd log]. fold files.
  assert (F : features_written
                (opening_events cl (List.length files)
                   ++ loop_events env fs1 files ++ closing_events cl)
              = successes env fs1 files).
  { rewrite !features_written_app, features_written_loop.
    rewrite features_written_opening, features_written_closing.
    cbn [app]. now rewrite app_nil_r. }
  split; [reflexivity|]. split; [exact F|]. split; [|split].
  - rewrite !printed_app, printed_loop. reflexivity.
  - rewrite F. apply successes_failures_length.
  - intros A. rewrite F.
    assert (Z : successes env fs1 files = []).
    { unfold successes. clear F. induction files as [|p l IH]; [reflexivity|].
      cbn [flat_map]. destruct (A p (or_introl eq_refl)) as [e ->].
      apply IH. intros q I. apply A. now right. }
    split; [exact Z|].
    pose proof (successes_failures_length env fs1 files) as L.
    rewrite Z in L. exact L.
Qed.

Lemma every_file_gives_a_record_or_a_warning_witness :
  exit_status (run (willing_writer Posix) survey_command unreadable_tree) = 0%Z
  /\ features_written
       (run_log (run (willing_writer Posix) survey_command unreadable_tree))
     = []
  /\ printed
       (run_log (run (willing_writer Posix) survey_command unreadable_tree))
     = [ "Found 2 point cloud files";
         "Output shapefile: survey/PointCloud_laz_BBOX/PointCloud_laz_BBOX_survey.shp";
         "Warning: Could not process one.las: Invalid file signature";
         "Warning: Could not process two.laz: Unsupported version";
         newline ++ "Success! Bounding box shapefile created: survey/PointCloud_laz_BBOX/PointCloud_laz_BBOX_survey.shp";
         "Coordinate Reference System: EPSG:4326" ]%string.
Proof.
  destruct (every_file_gives_a_record_or_a_warning
              (willing_writer Posix) survey_command unreadable_tree
              (unreadable_tree ++ [ (["survey"; "PointCloud_laz_BBOX"], Dir) ])
              eq_refl)
    as [H1 [_ [H3 [_ H5]]]]; [discriminate|reflexivity|].
  split; [exact H1|]. split; [|exact H3].
  apply H5. intros p [<-|[<-|[]]]; eexists; reflexivity.
Defined.

(** X3: when the writer refuses to open the dataset, the run prints the two
    progress lines and the error, exits with status 1 and writes no record;
    the output directory made before stays, no dataset file is added and
    nothing is closed. *)
Theorem writer_open_failure_is_fatal (env : Env) (cl : CommandLine)
        (fs0 fs1 : FileSystem) (msg : string) :
  mkdir_exist_ok fs0 (output_path_of (cl_input_folder cl) (cl_output cl))
  = inr fs1 ->
  discover (flavour env) fs1 (cl_input_folder cl) <> [] ->
  fiona_open_error env
    (str (shapefile_path_of (cl_input_folder cl) (cl_output cl)))
    (effective_crs cl) = Some msg ->
  let r := run env cl fs0 in
  exit_status r = 1%Z
  /\ final_fs r = fs1
  /\ lookup (final_fs r) (output_path_of (cl_input_folder cl) (cl_output cl))
     = Some Dir
  /\ printed (run_log r)
     = [ "Found "
           ++ string_of_nat
                (List.length (discover (flavour env) fs1 (cl_input_folder cl)))
           ++ " point cloud files";
         "Output shapefile: "
           ++ str (shapefile_path_of (cl_input_folder cl) (cl_output cl));
         "Error: " ++ msg ]%string
  /\ writer_calls (run_log r)
     = [ FionaOpen (str (shapefile_path_of (cl_input_folder cl) (cl_output cl)))
                   "w" "ESRI Shapefile" schema (effective_crs cl) ].
Proof.
  intros Hmk Hd Ho r. subst r.
  rewrite (run_open_fails env cl fs0 fs1 msg Hmk Hd Ho).
  unfold exit_status, final_fs, run_log. cbn [fst snd fs log].
  repeat split. now apply (mkdir_makes_dir fs0).
Qed.

Lemma writer_open_failure_is_fatal_witness :
  exit_status (run (refusing_writer "Invalid CRS") survey_command survey_tree)
  = 1%Z
  /\ final_fs (run (refusing_writer "Invalid CRS") survey_command survey_tree)
     = survey_after_mkdir.
Proof.
  destruct (writer_open_failure_is_fatal
              (refusing_writer "Invalid CRS") survey_command survey_tree
              survey_after_mkdir "Invalid CRS" eq_refl)
    as [H1 [H2 _]]; [discriminate|reflexivity|].
  split; assumption.
Defined.

(** ** What a failed run leaves on disk *)

(** X4: a run that ends with status 1 removes and replaces nothing, and
    adds at most the output directory: the tree is as before, or as before
    with the output directory as its newest entry. *)
Theorem failed_run_adds_at_most_the_output_folder (env : Env)
        (cl : CommandLine) (fs0 : FileSystem) :
  let r := run env cl fs0 in
  let out := output_path_of (cl_input_folder cl) (cl_output cl) in
  exit_status r = 1%Z ->
  (final_fs r = fs0
   \/ (final_fs r = fs0 ++ [(out, Dir)] /\ lookup fs0 out = None))
  /\ (forall p n, lookup fs0 p = Some n -> lookup (final_fs r) p = Some n)
  /\ (forall p n, lookup (final_fs r) p = Some n ->
                  lookup fs0 p = Some n \/ (p = out /\ n = Dir)).
Proof.
  intros r out. subst r out.
  destruct (run_cases env cl fs0); rewrite Hrun;
    unfold exit_status, final_fs; cbn [fst snd fs]; intros S;
    try discriminate;
    try (split; [left; reflexivity|]; split; tauto);
    (split; [|split]);
    try (destruct (mkdir_exist_ok_inr _ _ _ Hmk) as [[-> _]|[-> [L _]]]; tauto);
    try (intros p n L; now apply (mkdir_keeps fs0 _ _ _ _ Hmk));
    intros p n L; destruct (mkdir_adds _ _ _ _ _ Hmk L); tauto.
Qed.

Lemma failed_run_adds_at_most_the_output_folder_witness :
  final_fs (run (refusing_writer "Invalid CRS") survey_command survey_tree)
  = survey_tree
  \/ (final_fs (run (refusing_writer "Invalid CRS") survey_command survey_tree)
      = survey_tree ++ [ (["survey"; "PointCloud_laz_BBOX"], Dir) ]
      /\ lookup survey_tree ["survey"; "PointCloud_laz_BBOX"] = None).
Proof.
  exact (proj1 (failed_run_adds_at_most_the_output_folder
                  (refusing_writer "Invalid CRS") survey_command survey_tree
                  eq_refl)).
Defined.

(** ** The calls to the writer *)

(** X5: the writer is used as open, write ..., close: a run with status 0
    opened the dataset once, wrote exactly the records of the dataset and
    closed it once, after the last record; a run with status 1 wrote and
    closed nothing, and opened the dataset at most once. *)
Theorem writer_is_opened_written_closed (env : Env) (cl : CommandLine)
        (fs0 : FileSystem) :
  let r := run env cl fs0 in
  let opened :=
    FionaOpen (str (shapefile_path_of (cl_input_folder cl) (cl_output cl)))
              "w" "ESRI Shapefile" schema (effective_crs cl) in
  (exit_status r = 0%Z ->
   writer_calls (run_log r)
   = opened :: map FionaWrite (features_written (run_log r)) ++ [FionaClose])
  /\ (exit_status r = 1%Z ->
      writer_calls (run_log r) = [] \/ writer_calls (run_log r) = [opened]).
Proof.
  intros r opened. subst r opened.
  destruct (run_cases env cl fs0); rewrite Hrun;
    unfold exit_status, run_log; cbn [fst snd log];
    try (split; [discriminate|intros _; left; reflexivity]).
  - split; [discriminate|]. intros _. right. reflexivity.
  - split; [|discriminate]. intros _.
    rewrite !writer_calls_app, writer_calls_loop.
    rewrite !features_written_app, features_written_loop.
    rewrite features_written_opening, features_written_closing.
    cbn [app]. rewrite app_nil_r. reflexivity.
Qed.

Lemma writer_is_opened_written_closed_witness :
  List.length
    (writer_calls
       (run_log (run (willing_writer Posix) survey_command survey_tree))) = 4.
Proof.
  rewrite (proj1 (writer_is_opened_written_closed
                    (willing_writer Posix) survey_command survey_tree) eq_refl).
  reflexivity.
Defined.

(** ** The records of the dataset *)

(** X6: every record a run writes is a polygon with the single ring traced
    from its own four extents; its attributes are the header values of a
    file that was in the input folder before the run, named by the record
    and carrying one of the two extensions. *)
Theorem records_describe_input_files (env : Env) (cl : CommandLine)
        (fs0 : FileSystem) (f : Feature) :
  In f (features_written (run_log (run env cl fs0))) ->
  geometry_type f = "Polygon"
  /\ coordinates f = [ring_of_properties f]
  /\ has_las_extension (flavour env) (prop_filename f) = true
  /\ exists p header,
      lookup fs0 p = Some (File (inr header))
      /\ p <> [] /\ parent p = cl_input_folder cl
      /\ name p = prop_filename f
      /\ prop_x_min f = x_min header /\ prop_x_max f = x_max header
      /\ prop_y_min f = y_min header /\ prop_y_max f = y_max header
      /\ prop_points f = point_count header.
Proof.
  destruct (run_cases env cl fs0); rewrite Hrun; unfold run_log;
    cbn [snd log];
    rewrite ?features_written_app, ?features_written_loop,
      ?features_written_opening, ?features_written_closing;
    cbn [features_written flat_map app]; try (intros []).
  rewrite app_nil_r. intros I.
    destruct (in_successes _ _ _ _ I) as [p [header [Ip [L [_ ->]]]]].
    destruct (discover_has_extension _ _ _ _ Ip) as [X C].
    apply is_child_of_iff in C. destruct C as [Hn Hp].
    split; [reflexivity|]. split; [reflexivity|]. split; [exact X|].
    exists p, header. repeat split; try assumption.
    unfold laspy_open in L.
    destruct (lookup fs1 p) as [[|[m|h]]|] eqn:E; try discriminate.
    injection L as ->.
    destruct (mkdir_adds _ _ _ _ _ Hmk E) as [H|[_ [H _]]];
      [exact H|discriminate].
Qed.

Lemma records_describe_input_files_witness :
  coordinates (make_feature ["survey"; "north.las"] (mkHeader 0 10 0 5 1200))
  = [ring_of_properties
       (make_feature ["survey"; "north.las"] (mkHeader 0 10 0 5 1200))]
  /\ exists p header,
      lookup survey_tree p = Some (File (inr header))
      /\ name p = "north.las" /\ point_count header = 1200%Z.
Proof.
  destruct (records_describe_input_files
              (willing_writer Posix) survey_command survey_tree
              (make_feature ["survey"; "north.las"] (mkHeader 0 10 0 5 1200)))
    as [_ [C [_ [p [header [L [_ [_ [N [_ [_ [_ [_ P]]]]]]]]]]]]].
  - left. reflexivity.
  - split; [exact C|]. exists p, header. repeat split; try assumption.
    now rewrite <- P.
Defined.

(** ** The output folder *)

Lemma run_raised (env : Env) (cl : CommandLine) (fs0 : FileSystem)
      (e : Exception) (w : World) :
  process_point_clouds env (cl_input_folder cl) (cl_output cl)
                       (effective_crs cl) (mkWorld fs0 []) = (inl e, w) ->
  raised env cl fs0 = Some e
  /\ run env cl fs0
     = (1%Z, mkWorld (fs w) (log w ++ [Print ("Error: " ++ exc_str e)])).
Proof.
  intros H. unfold raised, run. rewrite main_eq, H. split; reflexivity.
Qed.

Lemma raised_mkdir (env : Env) (cl : CommandLine) (fs0 : FileSystem)
      (e : Exception) :
  mkdir_exist_ok fs0 (output_path_of (cl_input_folder cl) (cl_output cl))
  = inl e ->
  raised env cl fs0 = Some e.
Proof.
  intros H. eapply run_raised. rewrite process_point_clouds_eq. cbv zeta.
  rewrite H. reflexivity.
Qed.



(** X8: when the input path is a regular file of a well-formed tree, the
    run exits with status 1 and never calls the writer.  Without [--output]
    the error is the NotADirectoryError [mkdir] raises for the output folder
    and nothing changes; with an output folder that can be made,
    [get_las_files] returns the empty list and the error is the ValueError
    raised for it. *)
Theorem input_path_is_a_file (env : Env) (cl : CommandLine) (fs0 : FileSystem)
        (c : string + Header) :
  lookup fs0 (cl_input_folder cl) = Some (File c) ->
  well_formed fs0 = true ->
  let r := run env cl fs0 in
  exit_status r = 1%Z
  /\ writer_calls (run_log r) = []
  /\ (cl_output cl = None ->
      exists e,
        mkdir_exist_ok fs0 (truediv (cl_input_folder cl) "PointCloud_laz_BBOX")
        = inl e
        /\ raised env cl fs0 = Some e
        /\ exc_class e = NotADirectoryError
        /\ r = (1%Z, mkWorld fs0 [Print ("Error: " ++ exc_str e)]))
  /\ (forall fs1,
         mkdir_exist_ok fs0 (output_path_of (cl_input_folder cl) (cl_output cl))
         = inr fs1 ->
         fst (get_las_files (flavour env) (cl_input_folder cl) (mkWorld fs1 []))
         = inr []
         /\ exists e,
             raised env cl fs0 = Some e
             /\ exc_class e = ValueError
             /\ r = (1%Z, mkWorld fs1 [Print ("Error: " ++ exc_str e)])).
Proof.
  intros L W r. subst r.
  assert (D : forall fs1,
             mkdir_exist_ok fs0 (output_path_of (cl_input_folder cl) (cl_output cl))
             = inr fs1 ->
             path_exists fs1 (cl_input_folder cl) = true
             /\ discover (flavour env) fs1 (cl_input_folder cl) = []).
  { intros fs1 Hmk. pose proof (mkdir_keeps _ _ _ _ _ Hmk L) as L1. split.
    - unfold path_exists. now rewrite L1.
    - apply discover_not_dir. rewrite L1. discriminate. }
  assert (R : forall fs1,
             mkdir_exist_ok fs0 (output_path_of (cl_input_folder cl) (cl_output cl))
             = inr fs1 ->
             run env cl fs0
             = (1%Z,
                mkWorld fs1
                  [Print ("Error: " ++ "No .las or .laz files found in "
                                    ++ str (cl_input_folder cl))])).
  { intros fs1 Hmk. destruct (D fs1 Hmk) as [X Y]. now apply run_no_files. }
  split; [|split; [|split]].
  - destruct (mkdir_exist_ok fs0 (output_path_of (cl_input_folder cl)
                                                 (cl_output cl)))
      as [e|fs1] eqn:Hmk.
    + now rewrite (run_mkdir_fails env cl fs0 e Hmk).
    + now rewrite (R fs1 eq_refl).
  - destruct (mkdir_exist_ok fs0 (output_path_of (cl_input_folder cl)
                                                 (cl_output cl)))
      as [e|fs1] eqn:Hmk.
    + now rewrite (run_mkdir_fails env cl fs0 e Hmk).
    + now rewrite (R fs1 eq_refl).
  - intros Hout.
    assert (H : mkdir_exist_ok fs0
                  (output_path_of (cl_input_folder cl) (cl_output cl))
                = inl (os_error NotADirectoryError "20" "Not a directory"
                         (truediv (cl_input_folder cl) "PointCloud_laz_BBOX"))).
    { unfold output_path_of. rewrite Hout. unfold mkdir_exist_ok, truediv.
      now rewrite walk_snoc, (well_formed_walk _ _ _ W L). }
    eexists. split; [|split; [|split]].
    + unfold output_path_of in H. rewrite Hout in H. exact H.
    + now apply raised_mkdir.
    + reflexivity.
    + now apply run_mkdir_fails.
  - intros fs1 Hmk. destruct (D fs1 Hmk) as [X Y]. split.
    + rewrite get_las_files_eq. cbn [fs fst]. rewrite X. cbn [fst].
      now rewrite Y.
    + exists (mkExc ValueError
                    ("No .las or .laz files found in "
                       ++ str (cl_input_folder cl))).
      split; [|split; [reflexivity|now apply R]].
      unfold raised. rewrite process_point_clouds_eq. cbv zeta.
      now rewrite Hmk, X, Y.
Qed.

Lemma input_path_is_a_file_witness :
  exit_status (run (willing_writer Posix)
                   (mkCommandLine ["survey"; "north.las"] None None)
                   survey_tree) = 1%Z
  /\ exists e,
      exc_class e = NotADirectoryError
      /\ run (willing_writer Posix)
             (mkCommandLine ["survey"; "north.las"] None None) survey_tree
         = (1%Z, mkWorld survey_tree [Print ("Error: " ++ exc_str e)]).
Proof.
  destruct (input_path_is_a_file
              (willing_writer Posix)
              (mkCommandLine ["survey"; "north.las"] None None)
              survey_tree _ eq_refl eq_refl) as [H1 [_ [H3 _]]].
  split; [exact H1|].
  destruct (H3 eq_refl) as [e [_ [_ [C R]]]]. exists e. split; assumption.
Defined.

(** ** Running again after a failure *)

Lemma lookup_snoc_neq (tree : FileSystem) (p q : Path) (n : Node) :
  q <> p -> lookup (tree ++ [(p, n)]) q = lookup tree q.
Proof.
  intros H. unfold lookup. destruct q as [|x q]; [reflexivity|].
  destruct (assoc tree (x :: q)) eqn:A.
  - now apply assoc_app_found.
  - rewrite assoc_app_missing by assumption. simpl.
    destruct (path_eqb p (x :: q)) eqn:E; [|reflexivity].
    apply path_eqb_eq in E. congruence.
Qed.

Lemma mkdir_idem (tree fs1 : FileSystem) (p : Path) :
  mkdir_exist_ok tree p = inr fs1 -> mkdir_exist_ok fs1 p = inr fs1.
Proof.
  intros H. pose proof (mkdir_makes_dir _ _ _ H) as D.
  destruct (mkdir_exist_ok_inr _ _ _ H) as [[-> _]|[-> [N _]]];
    [exact H|].
  assert (A : forall k, k < List.length p ->
                        lookup (tree ++ [(p, Dir)]) ([] ++ firstn k p)
                        = lookup tree ([] ++ firstn k p)).
  { intros k Hk. apply lookup_snoc_neq. intros E.
    change ([] ++ firstn k p) with (firstn k p) in E.
    apply (f_equal (@List.length string)) in E.
    rewrite length_firstn in E. lia. }
  unfold mkdir_exist_ok in H.
  destruct (walk tree [] p) as [| |o] eqn:V; try discriminate.
  unfold mkdir_exist_ok. rewrite (walk_agree _ _ _ _ _ A V).
  change ([] ++ p) with p. now rewrite D.
Qed.

(** X9: a run that ends with status 1 fails in the same way when the same
    command is run again on the tree it left: same status, same output,
    tree unchanged.  The output directory a failed run has made does not
    turn the failure into a success. *)
Theorem failed_run_fails_again (env : Env) (cl : CommandLine)
        (fs0 : FileSystem) :
  exit_status (run env cl fs0) = 1%Z ->
  run env cl (final_fs (run env cl fs0)) = run env cl fs0.
Proof.
  destruct (run_cases env cl fs0); rewrite Hrun;
    unfold exit_status, final_fs; cbn [fst snd fs]; intros S;
    try discriminate.
  - now rewrite Hrun.
  - apply run_folder_not_found; [now apply (mkdir_idem fs0)|assumption].
  - apply run_no_files; [now apply (mkdir_idem fs0)|assumption|assumption].
  - apply run_open_fails; [now apply (mkdir_idem fs0)|assumption|assumption].
Qed.

Lemma failed_run_fails_again_witness :
  run (willing_writer Posix)
      (mkCommandLine ["elsewhere"] (Some ["out"]) None)
      (final_fs (run (willing_writer Posix)
                     (mkCommandLine ["elsewhere"] (Some ["out"]) None)
                     survey_tree))
  = run (willing_writer Posix)
        (mkCommandLine ["elsewhere"] (Some ["out"]) None) survey_tree.
Proof.
  exact (failed_run_fails_again
           (willing_writer Posix)
           (mkCommandLine ["elsewhere"] (Some ["out"]) None) survey_tree
           eq_refl).
Defined.

(** ** No entry twice *)

Lemma assoc_none_not_in (tree : FileSystem) (p : Path) :
  assoc tree p = None -> ~ In p (map fst tree).
Proof.
  induction tree as [|[q m] tree IH]; simpl; [tauto|].
  destruct (path_eqb q p) eqn:E; [discriminate|].
  apply path_eqb_neq in E. intros H [G|G]; [congruence|now apply IH].
Qed.

Lemma mkdir_keeps_nodup (tree fs1 : FileSystem) (p : Path) :
  mkdir_exist_ok tree p = inr fs1 ->
  NoDup (map fst tree) -> NoDup (map fst fs1).
Proof.
  intros H N. destruct (mkdir_exist_ok_inr _ _ _ H) as [[-> _]|[-> [L _]]];
    [assumption|].
  rewrite map_app. apply NoDup_app; [assumption|repeat constructor; intros []|].
  intros a I [E|[]]. subst a. unfold lookup in L. destruct p; [discriminate|].
  now apply (assoc_none_not_in tree (s :: p)).
Qed.

Lemma scandir_nodup (tree : FileSystem) (folder : Path) :
  NoDup (map fst tree) -> NoDup (scandir tree folder).
Proof.
  induction tree as [|[p n] tree IH]; [constructor|].
  cbn [map fst]. intros N. inversion N as [|? ? Hp Ht]; subst.
  unfold scandir. cbn [filter fst].
  destruct (is_child_of folder p) eqn:C; [|now apply IH].
  cbn [map fst]. constructor; [|now apply IH].
  intros I. fold (scandir tree folder) in I. apply in_scandir in I.
  destruct I as [node I]. rewrite <- (is_child_of_inv _ _ C) in I.
  apply Hp. apply in_map_iff. now exists (p, node).
Qed.

Lemma map_name_glob (fl : Flavour) (tree : FileSystem) (folder : Path)
      (pat : string) :
  map name (glob fl tree folder pat) = [] \/
  map name (glob fl tree folder pat)
  = filter (fun n => fnmatch fl n pat) (scandir tree folder).
Proof.
  unfold glob. destruct (lookup tree folder) as [[|c]|]; try (left; reflexivity).
  right. rewrite map_map. rewrite <- (map_id (filter _ _)) at 2.
  apply map_ext. intros entry. apply name_truediv.
Qed.

Lemma discover_names_nodup (fl : Flavour) (tree : FileSystem) (folder : Path) :
  NoDup (map fst tree) -> NoDup (map name (discover fl tree folder)).
Proof.
  intros N. pose proof (scandir_nodup tree folder N) as S.
  unfold discover. rewrite map_app. apply NoDup_app.
  - destruct (map_name_glob fl tree folder "*.las") as [-> | ->];
      [constructor|now apply NoDup_filter].
  - destruct (map_name_glob fl tree folder "*.laz") as [-> | ->];
      [constructor|now apply NoDup_filter].
  - intros a A B. apply in_map_iff in A. destruct A as [p [<- A]].
    apply in_map_iff in B. destruct B as [q [E B]].
    pose proof (glob_name_matches fl tree folder "*.las") as F.
    pose proof (glob_name_matches fl tree folder "*.laz") as G.
    rewrite Forall_forall in F, G.
    destruct (F p A) as [F1 _]. destruct (G q B) as [G1 _].
    rewrite E in G1. apply fnmatch_disjoint in F1. congruence.
Qed.

Lemma successes_names_incl (env : Env) (tree : FileSystem) (files : list Path)
      (x : string) :
  In x (map prop_filename (successes env tree files)) -> In x (map name files).
Proof.
  rewrite !in_map_iff. intros [f [<- I]].
  destruct (in_successes _ _ _ _ I) as [p [header [Ip [_ [_ ->]]]]].
  now exists p.
Qed.

Lemma successes_names_nodup (env : Env) (tree : FileSystem) (files : list Path) :
  NoDup (map name files) ->
  NoDup (map prop_filename (successes env tree files)).
Proof.
  induction files as [|p files IH]; [constructor|].
  cbn [map]. intros N. inversion N as [|? ? Hp Ht]; subst.
  unfold successes. cbn [flat_map]. fold (successes env tree files).
  destruct (outcome env tree p) as [e|f] eqn:O; [now apply IH|].
  change ([f] ++ successes env tree files) with (f :: successes env tree files).
  rewrite map_cons, (outcome_filename _ _ _ _ O).
  constructor; [|now apply IH].
  intros I. apply Hp. now apply (successes_names_incl env tree).
Qed.

(** X10: on a tree in which no path is listed twice, [get_las_files]
    returns no path twice and no two paths with the same name, and the
    dataset a run writes has no two records with the same filename. *)
Theorem no_file_is_recorded_twice (fs0 : FileSystem) :
  NoDup (map fst fs0) ->
  (forall fl folder lg files w',
      get_las_files fl folder (mkWorld fs0 lg) = (inr files, w') ->
      NoDup files /\ NoDup (map name files))
  /\ (forall env cl,
         NoDup (map prop_filename
                    (features_written (run_log (run env cl fs0))))).
Proof.
  intros N. split.
  - intros fl folder lg files w' E. rewrite get_las_files_eq in E.
    cbn [fs] in E. destruct (path_exists fs0 folder); [|discriminate].
    injection E as <- _.
    pose proof (discover_names_nodup fl fs0 folder N) as D.
    split; [now apply (NoDup_map_inv name)|exact D].
  - intros env cl.
    destruct (run_cases env cl fs0); rewrite Hrun; unfold run_log;
      cbn [snd log];
      rewrite ?features_written_app, ?features_written_loop,
        ?features_written_opening, ?features_written_closing;
      cbn [features_written flat_map app map]; try constructor.
    rewrite app_nil_r. apply successes_names_nodup.
    apply discover_names_nodup. now apply (mkdir_keeps_nodup fs0 fs1 _ Hmk).
Qed.

Lemma no_file_is_recorded_twice_witness :
  NoDup (map prop_filename
             (features_written
                (run_log (run (willing_writer Windows) survey_command
                              survey_tree)))).
Proof.
  refine (proj2 (no_file_is_recorded_twice survey_tree _) _ _).
  repeat constructor; simpl; intuition discriminate.
Defined.

(** ** Discovery on the two platforms *)

Lemma is_suffix_map (g : ascii -> ascii) (suf s : list ascii) :
  is_suffix suf s = true -> is_suffix (map g suf) (map g s) = true.
Proof.
  rewrite !is_suffix_iff. intros [pre ->]. exists (map g pre). apply map_app.
Qed.

Lemma ends_with_lower (s ext : string) :
  lower ext = ext -> ends_with s ext = true -> ends_with (lower s) ext = true.
Proof.
  unfold ends_with. intros E H. rewrite <- E at 1. unfold lower.
  rewrite !list_ascii_of_string_of_list_ascii. now apply is_suffix_map.
Qed.

Lemma has_las_extension_posix_windows (entry : string) :
  has_las_extension Posix entry = true ->
  has_las_extension Windows entry = true.
Proof.
  unfold has_las_extension, normcase. rewrite !orb_true_iff.
  intros [H|H]; [left|right]; now apply ends_with_lower.
Qed.

(** X11: whatever [get_las_files] returns under the case-sensitive rule of
    POSIX it also returns under the rule of Windows; and when every name in
    the folder is in lower case, the two rules return the same list. *)
Theorem posix_discovery_within_windows_discovery (tree : FileSystem)
        (folder : Path) (lg : list Event) (on_posix on_windows : list Path)
        (w1 w2 : World) :
  get_las_files Posix folder (mkWorld tree lg) = (inr on_posix, w1) ->
  get_las_files Windows folder (mkWorld tree lg) = (inr on_windows, w2) ->
  incl on_posix on_windows
  /\ ((forall entry, In entry (scandir tree folder) -> lower entry = entry) ->
      on_posix = on_windows).
Proof.
  intros E1 E2. rewrite get_las_files_eq in E1, E2. cbn [fs] in E1, E2.
  destruct (path_exists tree folder); [|discriminate].
  injection E1 as <- _. injection E2 as <- _. split.
  - intros p I. destruct (lookup tree folder) as [[|c]|] eqn:L;
      try (rewrite discover_not_dir in I by (rewrite L; discriminate);
           destruct I).
    unfold discover in *. rewrite in_app_iff in *.
    rewrite !in_glob in * by assumption.
    rewrite !fnmatch_las, !fnmatch_laz in *. unfold normcase in *.
    destruct I as [[X [C H]]|[X [C H]]]; [left|right];
      repeat split; try assumption; now apply ends_with_lower.
  - intros A. unfold discover, glob.
    destruct (lookup tree folder) as [[|c]|]; try reflexivity.
    f_equal; f_equal; apply filter_ext_in; intros entry I;
      unfold fnmatch, normcase; now rewrite (A entry I).
Qed.

Lemma posix_discovery_within_windows_discovery_witness :
  incl (discover Posix survey_tree ["survey"])
       (discover Windows survey_tree ["survey"]).
Proof.
  exact (proj1 (posix_discovery_within_windows_discovery
                  survey_tree ["survey"] [] _ _ _ _ eq_refl eq_refl)).
Defined.

(** ** The rectangle and its extents *)

Lemma SFleb_refl_both (a b : spec_float) :
  SFleb a b = true -> SFleb a a = true /\ SFleb b b = true.
Proof.
  assert (R : forall m e s,
             SFleb (S754_finite s m e) (S754_finite s m e) = true).
  { intros m e s. unfold SFleb, SFcompare. rewrite Z.compare_refl.
    change (PosDef.Pos.compare_cont Eq m m) with (m ?= m)%positive.
    rewrite Pos.compare_refl. destruct s; reflexivity. }
  destruct a as [[]|[]| |[] m e], b as [[]|[]| |[] m' e'];
    try discriminate; intros _; split; try reflexivity; apply R.
Qed.

Lemma float_leb_refl_both (a b : float) :
  PrimFloat.leb a b = true ->
  PrimFloat.leb a a = true /\ PrimFloat.leb b b = true.
Proof. rewrite !leb_spec. apply SFleb_refl_both. Qed.

(** X12: for a header with x_min <= x_max and y_min <= y_max, every vertex
    of the ring lies within the extents, and the two opposite corners
    (x_min, y_min) and (x_max, y_max) are vertices of the ring. *)
Theorem ring_within_extents (h : Header) :
  PrimFloat.leb (x_min h) (x_max h) = true ->
  PrimFloat.leb (y_min h) (y_max h) = true ->
  Forall (fun v => PrimFloat.leb (x_min h) (fst v) = true
                   /\ PrimFloat.leb (fst v) (x_max h) = true
                   /\ PrimFloat.leb (y_min h) (snd v) = true
                   /\ PrimFloat.leb (snd v) (y_max h) = true)
         (create_bounding_box_points h)
  /\ In (x_min h, y_min h) (create_bounding_box_points h)
  /\ In (x_max h, y_max h) (create_bounding_box_points h).
Proof.
  intros Hx Hy.
  destruct (float_leb_refl_both _ _ Hx) as [X1 X2].
  destruct (float_leb_refl_both _ _ Hy) as [Y1 Y2].
  split; [|split].
  - unfold create_bounding_box_points. repeat constructor; assumption.
  - left. reflexivity.
  - right. right. left. reflexivity.
Qed.

Lemma ring_within_extents_witness :
  Forall (fun v => PrimFloat.leb 10 (fst v) = true
                   /\ PrimFloat.leb (fst v) 20 = true
                   /\ PrimFloat.leb (-5) (snd v) = true
                   /\ PrimFloat.leb (snd v) 0 = true)
         (create_bounding_box_points (mkHeader 10 20 (-5) 0 800)).
Proof.
  exact (proj1 (ring_within_extents (mkHeader 10 20 (-5) 0 800)
                                    eq_refl eq_refl)).
Defined.

(** ** Discovery at its edges *)



(** ** Dataset paths of two commands *)





